(** * Episodic training notebook (notebooks/episodic_training.ipynb)

    A shallow embedding of the notebook's code cells, from the seeding cell
    to the final test evaluation, and of the contracts of the collaborators
    they call.

    The notebook is a straight-line Python script over PyTorch, tqdm,
    TensorBoard and the easyfsl toolkit.  Every call that leaves the
    notebook is an element of the type family [call]; a run is a function
    from the interpreter's store to an outcome (a value or a Python
    exception), the new store and the list of calls made, in order, each
    with its outcome.  There is no operation that catches an exception: the
    notebook has no [try].

    What the numerical kernels compute (a forward pass, a loss, the values
    an SGD step writes, the episodes a loader delivers) is left to the
    [Backend]: the theorems hold for every back end.  What the notebook's
    control flow depends on is written out, as PyTorch and Python document
    it:
    - seeding overwrites the state of a generator;
    - the parameters of a module live in a heap of tensors, addressed by
      location; [state_dict()] returns a dictionary of references to these
      tensors, not copies; [optimizer.step()] writes the parameters in place;
      [load_state_dict] copies values into the existing parameters; no other
      call writes them;
    - [statistics.mean] raises on an empty list, the true division of two
      ints on a zero divisor;
    - a [with] block runs the exit of its context manager on both ways out;
    - iterating a loader delivers [len(loader)] episodes, one fetch each;
    - moving a tensor to a device can raise and leaves its value as it is.

    Python floats produced by dividing two ints or by [statistics.mean] are
    represented by exact rationals ([Qc]); rounding is outside the model.
    The first cell (working directory, imports) is not modelled. *)

From Stdlib Require Import ZArith QArith Qcanon List String Lia.
From stdpp Require Import base numbers option list strings gmap pretty.

Set Default Proof Using "Type".
Local Open Scope string_scope.
Local Open Scope list_scope.
Local Open Scope nat_scope.

(** ** Outcomes of a Python call *)

(** A Python exception, identified by the name of its class. *)
Definition exn := string.

Definition StatisticsError : exn := "StatisticsError".
Definition ZeroDivisionError : exn := "ZeroDivisionError".
Definition RuntimeError : exn := "RuntimeError".

Inductive outcome (A : Type) : Type :=
| Ret (a : A)
| Raise (e : exn).
Arguments Ret {A} a.
Arguments Raise {A} e.

Definition is_ret {A} (o : outcome A) : bool :=
  match o with Ret _ => true | Raise _ => false end.

(** Locations of tensors in the interpreter's heap. *)
Definition loc := nat.

(** ** The objects the notebook builds *)

(** The value types of the deep-learning framework. *)
Class Values := {
  tensor : Type;      (* the value of a torch.Tensor: a parameter, scores, a loss *)
  image : Type;       (* one image of an image batch *)
  generator : Type;   (* the state of a random-number generator *)
  Env : Type;         (* everything else: files, gradients, momentum buffers,
                         prototypes, running statistics, worker processes *)
}.

Section Objects.
Context `{Values}.

(** An episode, as the loaders deliver it and [training_epoch] unpacks it. *)
Record Episode := {
  support_images : list image;
  support_labels : list nat;
  query_images : list image;
  query_labels : list nat;
  class_ids : list nat;
}.

(** [CUB(split=..., training=...)] *)
Record CUB := { split : string; training : bool }.

(** [TaskSampler(dataset, n_way=..., n_shot=..., n_query=..., n_tasks=...)] *)
Record TaskSampler := {
  sampler_dataset : CUB;
  sampler_n_way : nat;
  sampler_n_shot : nat;
  sampler_n_query : nat;
  sampler_n_tasks : nat;
}.

(** A bound method [sampler.episodic_collate_fn]. *)
Inductive CollateFn := episodic_collate_fn_of (self : TaskSampler).

(** [DataLoader(dataset, batch_sampler=..., num_workers=..., pin_memory=...,
    collate_fn=...)] *)
Record DataLoader := {
  dl_dataset : CUB;
  dl_batch_sampler : TaskSampler;
  dl_num_workers : nat;
  dl_pin_memory : bool;
  dl_collate_fn : CollateFn;
}.

(** [len(data_loader)]: with a batch sampler, the length of the sampler, which
    is its number of tasks. *)
Definition len (data_loader : DataLoader) : nat :=
  sampler_n_tasks (dl_batch_sampler data_loader).

(** A [torch.nn.Module]: its learnable parameters, by name; each is a
    reference to a tensor in the heap. *)
Record Module_ := { _parameters : gmap string loc }.

(** [PrototypicalNetworks(backbone)]; the head has no parameters of its own. *)
Record FewShotClassifier := { backbone : Module_ }.

(** The dictionary [state_dict()] returns: names to references. *)
Definition StateDict := gmap string loc.

(** [model.parameters()]: the references themselves. *)
Definition parameters (model : FewShotClassifier) : list loc :=
  (map_to_list (_parameters (backbone model))).*2.

(** [SGD(params, lr=..., momentum=..., weight_decay=...)] *)
Record Optimizer := {
  opt_params : list loc;
  opt_lr : Qc;
  opt_momentum : Qc;
  opt_weight_decay : Qc;
}.

(** [MultiStepLR(optimizer, milestones=..., gamma=...)] *)
Record MultiStepLR := {
  sch_optimizer : Optimizer;
  sch_milestones : list nat;
  sch_gamma : Qc;
}.

(** [SummaryWriter(log_dir=...)] *)
Record SummaryWriter := { log_dir : string }.

(** [tqdm(iterable, total=..., desc=...)] *)
Record Tqdm := { tqdm_total : nat; tqdm_desc : string }.

(** ** Calls that leave the notebook *)

Inductive call : Type → Type :=
(* seeding and cuDNN flags *)
| np_random_seed (seed : Z) : call unit
| torch_manual_seed (seed : Z) : call unit
| random_seed_ (seed : Z) : call unit
| set_cudnn_deterministic (b : bool) : call unit
| set_cudnn_benchmark (b : bool) : call unit
(* construction of objects *)
| CUB_load (split : string) (training : bool) : call unit
| resnet12 : call Module_
| module_to (model : FewShotClassifier) (device : string) : call unit
| SummaryWriter_open (log_dir : string) : call unit
(* progress display *)
| tqdm_new (total : nat) (desc : string) : call unit
| tqdm_set_postfix (bar : Tqdm) (loss : Qc) : call unit
| tqdm_exit (bar : Tqdm) : call unit
| progress_label (prefix : option string) : call unit
| print (line : string) : call unit
| print_percent (prefix : string) (value : Qc) (suffix : string) : call unit
(* data *)
| dataloader_next (data_loader : DataLoader) (index : nat) : call Episode
| images_to (x : list image) (device : string) : call unit
| labels_to (x : list nat) (device : string) : call unit
(* model and optimisation *)
| module_train (model : FewShotClassifier) : call unit
| zero_grad (optimizer : Optimizer) : call unit
| process_support_set (model : FewShotClassifier)
    (support_images : list image) (support_labels : list nat) : call unit
| forward (model : FewShotClassifier) (query_images : list image) : call tensor
| CrossEntropyLoss (scores : tensor) (labels : list nat) : call tensor
| backward (loss : tensor) : call unit
| optimizer_step (optimizer : Optimizer) : call unit
| item (loss : tensor) : call Qc
| argmax (scores : tensor) : call (list nat)
| scheduler_step (scheduler : MultiStepLR) : call unit
(* parameter state *)
| state_dict (model : FewShotClassifier) : call StateDict
| load_state_dict (model : FewShotClassifier) (state : StateDict) : call unit
(* logging *)
| add_scalar (writer : SummaryWriter) (tag : string) (value : Qc) (step : nat) : call unit
(* Python built-ins that can raise *)
| mean (data : list Qc) : call Qc
| truediv (a b : nat) : call Qc.

(** One call and how it ended. *)
Inductive event : Type :=
| Ev {R : Type} (c : call R) (o : outcome R).

Definition raised (ev : event) : option exn :=
  match ev with
  | Ev _ (Raise e) => Some e
  | Ev _ (Ret _) => None
  end.

(** ** The interpreter's store *)

(** The state the framework keeps behind the notebook's back. *)
Record Framework := {
  np_rng : generator;
  torch_rng : generator;
  py_rng : generator;
  cudnn_deterministic : bool;
  cudnn_benchmark : bool;
  env : Env;
}.

Record Store := {
  fw : Framework;
  heap : gmap loc tensor;
  next_loc : loc;
}.

Definition set_fw (f : Framework) (σ : Store) : Store :=
  {| fw := f; heap := heap σ; next_loc := next_loc σ |}.

Definition set_heap (h : gmap loc tensor) (σ : Store) : Store :=
  {| fw := fw σ; heap := h; next_loc := next_loc σ |}.

End Objects.

Arguments Ev {_ _} c o.

(** ** The numerical back end

    What the libraries compute.  No assumption is made on these functions. *)
Class Backend `{Values} := {
  (* the generator state a seed determines, per library *)
  np_seeded : Z → generator;
  torch_seeded : Z → generator;
  py_seeded : Z → generator;
  (* the initial values of the parameters of a fresh resnet12 *)
  resnet12_values : Framework → outcome (gmap string tensor) * Framework;
  (* the values one SGD step assigns to the optimizer's parameters, in the
     order of its parameter list *)
  sgd_values : Optimizer → gmap loc tensor → Framework → outcome (list tensor) * Framework;
  (* every other call: it reads the parameters and changes the framework's
     own state *)
  oracle : ∀ R, call R → gmap loc tensor → Framework → outcome R * Framework;
}.

Section Notebook.
Context `{Backend}.

(** ** What the calls do *)

(** [statistics.mean]: the arithmetic mean; an empty list raises. *)
Definition py_mean (data : list Qc) : outcome Qc :=
  match data with
  | [] => Raise StatisticsError
  | _ => Ret (foldr Qcplus 0%Qc data / Qc_of_Z (Z.of_nat (length data)))%Qc
  end.

(** [a / b] on ints: the quotient as a float; a zero divisor raises. *)
Definition py_truediv (a b : nat) : outcome Qc :=
  match b with
  | O => Raise ZeroDivisionError
  | _ => Ret (Qc_of_Z (Z.of_nat a) / Qc_of_Z (Z.of_nat b))%Qc
  end.

(** Fresh tensors for the initial values of a module's parameters. *)
Fixpoint alloc (init : list (string * tensor)) (n : loc) (h : gmap loc tensor)
  : gmap string loc * gmap loc tensor * loc :=
  match init with
  | [] => (∅, h, n)
  | (k, v) :: rest =>
      let '(ps, h', n') := alloc rest (S n) (<[n := v]> h) in
      (<[k := n]> ps, h', n')
  end.

(** [optimizer.step()] assigns to the parameter tensors in place. *)
Definition write_params (ps : list loc) (vs : list tensor) (h : gmap loc tensor)
  : gmap loc tensor :=
  foldr (λ lv h, <[lv.1 := lv.2]> h) h (zip ps vs).

(** [param.copy_(input_param)]: the value behind [src] is written to the
    tensor behind [dst]. *)
Definition copy_ (h : gmap loc tensor) (dst src : loc) : gmap loc tensor :=
  match h !! src with
  | Some v => <[dst := v]> h
  | None => h
  end.

(** [load_state_dict] copies, for every parameter of the module, the tensor
    the dictionary holds under its name. *)
Definition load_values (params : gmap string loc) (state : StateDict)
    (h : gmap loc tensor) : gmap loc tensor :=
  map_fold (λ k dst h, match state !! k with
                       | Some src => copy_ h dst src
                       | None => h
                       end) h params.

Definition handle {R} (c : call R) (σ : Store) : outcome R * Store :=
  match c in call R return outcome R * Store with
  | np_random_seed seed =>
      (Ret tt, set_fw {| np_rng := np_seeded seed;
                         torch_rng := torch_rng (fw σ);
                         py_rng := py_rng (fw σ);
                         cudnn_deterministic := cudnn_deterministic (fw σ);
                         cudnn_benchmark := cudnn_benchmark (fw σ);
                         env := env (fw σ) |} σ)
  | torch_manual_seed seed =>
      (Ret tt, set_fw {| np_rng := np_rng (fw σ);
                         torch_rng := torch_seeded seed;
                         py_rng := py_rng (fw σ);
                         cudnn_deterministic := cudnn_deterministic (fw σ);
                         cudnn_benchmark := cudnn_benchmark (fw σ);
                         env := env (fw σ) |} σ)
  | random_seed_ seed =>
      (Ret tt, set_fw {| np_rng := np_rng (fw σ);
                         torch_rng := torch_rng (fw σ);
                         py_rng := py_seeded seed;
                         cudnn_deterministic := cudnn_deterministic (fw σ);
                         cudnn_benchmark := cudnn_benchmark (fw σ);
                         env := env (fw σ) |} σ)
  | set_cudnn_deterministic b =>
      (Ret tt, set_fw {| np_rng := np_rng (fw σ);
                         torch_rng := torch_rng (fw σ);
                         py_rng := py_rng (fw σ);
                         cudnn_deterministic := b;
                         cudnn_benchmark := cudnn_benchmark (fw σ);
                         env := env (fw σ) |} σ)
  | set_cudnn_benchmark b =>
      (Ret tt, set_fw {| np_rng := np_rng (fw σ);
                         torch_rng := torch_rng (fw σ);
                         py_rng := py_rng (fw σ);
                         cudnn_deterministic := cudnn_deterministic (fw σ);
                         cudnn_benchmark := b;
                         env := env (fw σ) |} σ)
  | resnet12 =>
      match resnet12_values (fw σ) with
      | (Ret init, f) =>
          let '(ps, h, n) := alloc (map_to_list init) (next_loc σ) (heap σ) in
          (Ret {| _parameters := ps |}, {| fw := f; heap := h; next_loc := n |})
      | (Raise e, f) => (Raise e, set_fw f σ)
      end
  | optimizer_step optimizer =>
      match sgd_values optimizer (heap σ) (fw σ) with
      | (Ret vs, f) =>
          (Ret tt, set_heap (write_params (opt_params optimizer) vs (heap σ)) (set_fw f σ))
      | (Raise e, f) => (Raise e, set_fw f σ)
      end
  | state_dict model => (Ret (_parameters (backbone model)), σ)
  | load_state_dict model state =>
      let σ' := set_heap (load_values (_parameters (backbone model)) state (heap σ)) σ in
      if decide (dom state = dom (_parameters (backbone model)))
      then (Ret tt, σ')
      else (Raise RuntimeError, σ')
  | mean data => (py_mean data, σ)
  | truediv a b => (py_truediv a b, σ)
  | c' =>
      let '(o, f) := oracle _ c' (heap σ) (fw σ) in (o, set_fw f σ)
  end.

(** ** Runs *)

Definition M (A : Type) : Type := Store → outcome A * Store * list event.

#[global] Instance M_ret : MRet M := λ A a σ, (Ret a, σ, []).

#[global] Instance M_bind : MBind M := λ A B f m σ,
  match m σ with
  | (Ret a, σ1, t1) => let '(o, σ2, t2) := f a σ1 in (o, σ2, t1 ++ t2)
  | (Raise e, σ1, t1) => (Raise e, σ1, t1)
  end.

Definition ext {R} (c : call R) : M R := λ σ,
  let '(o, σ') := handle c σ in (o, σ', [Ev c o]).

(** [for x in xs: vars = body(vars, x)] *)
Fixpoint foldM {A V} (body : V → A → M V) (xs : list A) (vars : V) : M V :=
  match xs with
  | [] => mret vars
  | x :: xs' => vars' ← body vars x; foldM body xs' vars'
  end.

(** [with tqdm(..., total=total, desc=desc) as bar: body]: the bar's
    [__exit__] runs on both ways out of the body and does not swallow the
    exception; an exception raised by [__exit__] itself replaces it. *)
Definition with_tqdm {A} (total : nat) (desc : string) (body : Tqdm → M A) : M A := λ σ,
  let bar := {| tqdm_total := total; tqdm_desc := desc |} in
  match ext (tqdm_new total desc) σ with
  | (Raise e, σ1, t1) => (Raise e, σ1, t1)
  | (Ret _, σ1, t1) =>
      let '(o, σ2, t2) := body bar σ1 in
      match ext (tqdm_exit bar) σ2 with
      | (Ret _, σ3, t3) => (o, σ3, t1 ++ t2 ++ t3)
      | (Raise e, σ3, t3) => (Raise e, σ3, t1 ++ t2 ++ t3)
      end
  end.

(** ** The toolkit's functions the notebook relies on *)

(** [n] consecutive groups of [size] elements. *)
Fixpoint groups {A} (size n : nat) (xs : list A) : list (list A) :=
  match n with
  | O => []
  | S n' => take size xs :: groups size n' (drop size xs)
  end.

(** The label of a class inside an episode: its position among the
    episode's class identifiers. *)
Definition episode_label (ids : list nat) (class_id : nat) : nat :=
  match list_find (λ c, c = class_id) ids with
  | Some (i, _) => i
  | None => length ids
  end.

(** Modelled from the spec: the episode-collation function of the toolkit's
    task sampler ([TaskSampler.episodic_collate_fn]), which is not among the
    sources.  The spec gives an episode as the tuple (support images, support
    labels, query images, query labels, class-identifier mapping) whose shapes
    are fixed by the sampler's N classes, K shots and Q queries: the items of
    a task arrive class by class, K + Q per class; the first K of each class
    are its support examples and the other Q its queries.  A batch of any
    other size is a shape mismatch, on which the framework raises. *)
Definition episodic_collate_fn (self : TaskSampler) (input_data : list (image * nat))
  : outcome Episode :=
  let n := sampler_n_way self in
  let k := sampler_n_shot self in
  let q := sampler_n_query self in
  if decide (length input_data = n * (k + q)) then
    let true_class_ids := remove_dups (input_data.*2) in
    let by_class := groups (k + q) n input_data in
    let support := concat (take k <$> by_class) in
    let query := concat (drop k <$> by_class) in
    Ret {| support_images := support.*1;
           support_labels := episode_label true_class_ids <$> support.*2;
           query_images := query.*1;
           query_labels := episode_label true_class_ids <$> query.*2;
           class_ids := true_class_ids |}
  else Raise RuntimeError.

Definition apply_collate (f : CollateFn) : list (image * nat) → outcome Episode :=
  match f with episodic_collate_fn_of self => episodic_collate_fn self end.

(** The number of positions at which a prediction equals the label. *)
Definition count_correct (predictions labels : list nat) : nat :=
  length (filter (λ pl, pl.1 = pl.2) (zip predictions labels)).

(** Modelled from the spec: the evaluation routine of the toolkit
    ([easyfsl.methods.utils.evaluate]), which is not among the sources.  The
    spec gives it as a call taking (model, episode loader, device, optional
    progress label) that computes the aggregate accuracy over the episode
    loader, a scalar in [0,1]; the classifier ingests the support set of an
    episode and then classifies its query images.  The accuracy is the number
    of correctly classified queries over the number of queries, over all the
    episodes of the loader. *)
Definition evaluate (model : FewShotClassifier) (data_loader : DataLoader)
    (device : string) (tqdm_prefix : option string) : M Qc :=
  ext (progress_label tqdm_prefix);;
  counts ← foldM (λ (counts : nat * nat) index,
      episode ← ext (dataloader_next data_loader index);
      ext (images_to (support_images episode) device);;
      ext (labels_to (support_labels episode) device);;
      ext (process_support_set model (support_images episode) (support_labels episode));;
      ext (images_to (query_images episode) device);;
      scores ← ext (forward model (query_images episode));
      predictions ← ext (argmax scores);
      mret (counts.1 + count_correct predictions (query_labels episode),
            counts.2 + length (query_labels episode)))
    (seq 0 (len data_loader)) (0, 0);
  ext (truediv counts.1 counts.2).

(** ** The notebook, cell by cell *)

(** *** Seeding *)

Definition random_seed : Z := 0.

Definition seed_cell : M unit :=
  ext (np_random_seed random_seed);;
  ext (torch_manual_seed random_seed);;
  ext (random_seed_ random_seed);;
  ext (set_cudnn_deterministic true);;
  ext (set_cudnn_benchmark false).

(** *** The shape of the problem *)

Definition n_way : nat := 5.
Definition n_shot : nat := 5.
Definition n_query : nat := 10.

Definition DEVICE : string := "cuda".
Definition n_workers : nat := 12.

(** *** Data loaders *)

Definition n_tasks_per_epoch : nat := 500.
Definition n_validation_tasks : nat := 100.

(** [CUB(split=..., training=...)]: the dataset is read, then the object
    exists. *)
Definition CUB_new (split : string) (training : bool) : M CUB :=
  ext (CUB_load split training);;
  mret {| split := split; training := training |}.

Definition train_sampler (train_set : CUB) : TaskSampler :=
  {| sampler_dataset := train_set; sampler_n_way := n_way; sampler_n_shot := n_shot;
     sampler_n_query := n_query; sampler_n_tasks := n_tasks_per_epoch |}.

Definition val_sampler (val_set : CUB) : TaskSampler :=
  {| sampler_dataset := val_set; sampler_n_way := n_way; sampler_n_shot := n_shot;
     sampler_n_query := n_query; sampler_n_tasks := n_validation_tasks |}.

Definition train_loader (train_set : CUB) : DataLoader :=
  {| dl_dataset := train_set; dl_batch_sampler := train_sampler train_set;
     dl_num_workers := n_workers; dl_pin_memory := true;
     dl_collate_fn := episodic_collate_fn_of (train_sampler train_set) |}.

Definition val_loader (val_set : CUB) : DataLoader :=
  {| dl_dataset := val_set; dl_batch_sampler := val_sampler val_set;
     dl_num_workers := n_workers; dl_pin_memory := true;
     dl_collate_fn := episodic_collate_fn_of (val_sampler val_set) |}.

(** *** The network *)

Definition model_cell : M FewShotClassifier :=
  convolutional_network ← ext resnet12;
  let few_shot_classifier := {| backbone := convolutional_network |} in
  ext (module_to few_shot_classifier DEVICE);;
  mret few_shot_classifier.

(** *** Training helpers *)

Definition n_epochs : nat := 200.
Definition scheduler_milestones : list nat := [120; 160].
Definition scheduler_gamma : Qc := Q2Qc (1 # 10).
Definition learning_rate : Qc := Q2Qc (1 # 100).
Definition tb_logs_dir : string := ".".

Definition train_optimizer (few_shot_classifier : FewShotClassifier) : Optimizer :=
  {| opt_params := parameters few_shot_classifier; opt_lr := learning_rate;
     opt_momentum := Q2Qc (9 # 10); opt_weight_decay := Q2Qc (5 # 10000) |}.

Definition train_scheduler (few_shot_classifier : FewShotClassifier) : MultiStepLR :=
  {| sch_optimizer := train_optimizer few_shot_classifier;
     sch_milestones := scheduler_milestones; sch_gamma := scheduler_gamma |}.

Definition SummaryWriter_new (dir : string) : M SummaryWriter :=
  ext (SummaryWriter_open dir);;
  mret {| log_dir := dir |}.

(** *** [training_epoch] *)

Definition training_step (model : FewShotClassifier) (data_loader : DataLoader)
    (optimizer : Optimizer) (tqdm_train : Tqdm)
    (all_loss : list Qc) (episode_index : nat) : M (list Qc) :=
  episode ← ext (dataloader_next data_loader episode_index);
  let '{| support_images := support_images; support_labels := support_labels;
          query_images := query_images; query_labels := query_labels;
          class_ids := _ |} := episode in
  ext (zero_grad optimizer);;
  ext (images_to support_images DEVICE);;
  ext (labels_to support_labels DEVICE);;
  ext (process_support_set model support_images support_labels);;
  ext (images_to query_images DEVICE);;
  classification_scores ← ext (forward model query_images);
  ext (labels_to query_labels DEVICE);;
  loss ← ext (CrossEntropyLoss classification_scores query_labels);
  ext (backward loss);;
  ext (optimizer_step optimizer);;
  loss_item ← ext (item loss);
  let all_loss := all_loss ++ [loss_item] in
  running ← ext (mean all_loss);
  ext (tqdm_set_postfix tqdm_train running);;
  mret all_loss.

Definition training_epoch (model : FewShotClassifier) (data_loader : DataLoader)
    (optimizer : Optimizer) : M Qc :=
  ext (module_train model);;
  all_loss ← with_tqdm (len data_loader) "Training" (λ tqdm_train,
      foldM (training_step model data_loader optimizer tqdm_train)
            (seq 0 (len data_loader)) []);
  ext (mean all_loss).

(** *** The training loop *)

(** The global variables the cells before the loop leave behind. *)
Record Globals := {
  train_set : CUB;
  val_set : CUB;
  few_shot_classifier : FewShotClassifier;
  tb_writer : SummaryWriter;
}.

Definition setup : M Globals :=
  seed_cell;;
  train_set ← CUB_new "train" true;
  val_set ← CUB_new "val" false;
  few_shot_classifier ← model_cell;
  tb_writer ← SummaryWriter_new tb_logs_dir;
  mret {| train_set := train_set; val_set := val_set;
          few_shot_classifier := few_shot_classifier; tb_writer := tb_writer |}.

Record LoopVars := {
  best_state : StateDict;
  best_validation_accuracy : Qc;
}.

Definition epoch_body (g : Globals) (vars : LoopVars) (epoch : nat) : M LoopVars :=
  ext (print ("Epoch " +:+ pretty epoch));;
  average_loss ← training_epoch (few_shot_classifier g) (train_loader (train_set g))
                    (train_optimizer (few_shot_classifier g));
  validation_accuracy ← evaluate (few_shot_classifier g) (val_loader (val_set g))
                           DEVICE (Some "Validation");
  vars' ← (if decide (best_validation_accuracy vars < validation_accuracy)%Qc then
             new_state ← ext (state_dict (few_shot_classifier g));
             ext (print "Ding ding ding! We found a new best model!");;
             mret {| best_state := new_state;
                     best_validation_accuracy := validation_accuracy |}
           else mret vars);
  ext (add_scalar (tb_writer g) "Train/loss" average_loss epoch);;
  ext (add_scalar (tb_writer g) "Val/acc" validation_accuracy epoch);;
  ext (scheduler_step (train_scheduler (few_shot_classifier g)));;
  mret vars'.

(** The loop, stopped after its first [k] epochs. *)
Definition epochs (g : Globals) (k : nat) : M LoopVars :=
  initial_state ← ext (state_dict (few_shot_classifier g));
  foldM (epoch_body g) (seq 0 k)
        {| best_state := initial_state; best_validation_accuracy := 0%Qc |}.

(** [for epoch in range(n_epochs)] *)
Definition training_loop (g : Globals) : M LoopVars := epochs g n_epochs.

(** *** Evaluation on the test set *)

Definition n_test_tasks : nat := 1000.

Definition test_sampler (test_set : CUB) : TaskSampler :=
  {| sampler_dataset := test_set; sampler_n_way := n_way; sampler_n_shot := n_shot;
     sampler_n_query := n_query; sampler_n_tasks := n_test_tasks |}.

Definition test_loader (test_set : CUB) : DataLoader :=
  {| dl_dataset := test_set; dl_batch_sampler := test_sampler test_set;
     dl_num_workers := n_workers; dl_pin_memory := true;
     dl_collate_fn := episodic_collate_fn_of (test_sampler test_set) |}.

(** *** The whole notebook, top to bottom *)

(** The variables of interest when the last cell has run. *)
Record Final := {
  final_globals : Globals;
  final_vars : LoopVars;
  final_accuracy : Qc;
}.

Definition notebook : M Final :=
  g ← setup;
  vars ← training_loop g;
  ext (load_state_dict (few_shot_classifier g) (best_state vars));;
  test_set ← CUB_new "test" false;
  accuracy ← evaluate (few_shot_classifier g) (test_loader test_set) DEVICE None;
  ext (print_percent "Average accuracy : " (Qc_of_Z 100 * accuracy)%Qc " %");;
  mret {| final_globals := g; final_vars := vars; final_accuracy := accuracy |}.

End Notebook.

Arguments handle : simpl never.

(** ** The calls of a completed run

    What a run that raises nothing looks like from outside: the calls of each
    cell, in order, as a function of the values the back end returned. *)

Section Traces.
Context `{Backend}.

(** What the back end returned during one training step. *)
Record StepObs := {
  step_episode : Episode;
  step_scores : tensor;
  step_loss : tensor;
  step_item : Qc;
  step_running : Qc;
}.

(** What the back end returned for one episode of an evaluation. *)
Record EvalObs := {
  eval_episode : Episode;
  eval_scores : tensor;
  eval_predictions : list nat;
}.

(** What one epoch of the loop observed. *)
Record EpochObs := {
  epoch_steps : list StepObs;
  epoch_average : Qc;
  epoch_evals : list EvalObs;
  epoch_accuracy : Qc;
}.

Definition training_step_events (model : FewShotClassifier) (data_loader : DataLoader)
    (optimizer : Optimizer) (bar : Tqdm) (all_loss : list Qc) (index : nat)
    (s : StepObs) : list event :=
  let ep := step_episode s in
  [ Ev (dataloader_next data_loader index) (Ret ep);
    Ev (zero_grad optimizer) (Ret ());
    Ev (images_to (support_images ep) DEVICE) (Ret ());
    Ev (labels_to (support_labels ep) DEVICE) (Ret ());
    Ev (process_support_set model (support_images ep) (support_labels ep)) (Ret ());
    Ev (images_to (query_images ep) DEVICE) (Ret ());
    Ev (forward model (query_images ep)) (Ret (step_scores s));
    Ev (labels_to (query_labels ep) DEVICE) (Ret ());
    Ev (CrossEntropyLoss (step_scores s) (query_labels ep)) (Ret (step_loss s));
    Ev (backward (step_loss s)) (Ret ());
    Ev (optimizer_step optimizer) (Ret ());
    Ev (item (step_loss s)) (Ret (step_item s));
    Ev (mean (all_loss ++ [step_item s])) (Ret (step_running s));
    Ev (tqdm_set_postfix bar (step_running s)) (Ret ()) ].

Fixpoint training_steps_events (model : FewShotClassifier) (data_loader : DataLoader)
    (optimizer : Optimizer) (bar : Tqdm) (all_loss : list Qc) (index : nat)
    (steps : list StepObs) : list event :=
  match steps with
  | [] => []
  | s :: rest =>
      training_step_events model data_loader optimizer bar all_loss index s
      ++ training_steps_events model data_loader optimizer bar
           (all_loss ++ [step_item s]) (S index) rest
  end.

Definition training_epoch_events (model : FewShotClassifier) (data_loader : DataLoader)
    (optimizer : Optimizer) (steps : list StepObs) (average : Qc) : list event :=
  let bar := {| tqdm_total := len data_loader; tqdm_desc := "Training" |} in
  [ Ev (module_train model) (Ret ());
    Ev (tqdm_new (len data_loader) "Training") (Ret ()) ]
  ++ training_steps_events model data_loader optimizer bar [] 0 steps
  ++ [ Ev (tqdm_exit bar) (Ret ());
       Ev (mean (step_item <$> steps)) (Ret average) ].

Definition evaluate_step_events (model : FewShotClassifier) (data_loader : DataLoader)
    (device : string) (index : nat) (o : EvalObs) : list event :=
  let ep := eval_episode o in
  [ Ev (dataloader_next data_loader index) (Ret ep);
    Ev (images_to (support_images ep) device) (Ret ());
    Ev (labels_to (support_labels ep) device) (Ret ());
    Ev (process_support_set model (support_images ep) (support_labels ep)) (Ret ());
    Ev (images_to (query_images ep) device) (Ret ());
    Ev (forward model (query_images ep)) (Ret (eval_scores o));
    Ev (argmax (eval_scores o)) (Ret (eval_predictions o)) ].

Fixpoint evaluate_steps_events (model : FewShotClassifier) (data_loader : DataLoader)
    (device : string) (index : nat) (obs : list EvalObs) : list event :=
  match obs with
  | [] => []
  | o :: rest =>
      evaluate_step_events model data_loader device index o
      ++ evaluate_steps_events model data_loader device (S index) rest
  end.

(** The queries an evaluation classified correctly, and all its queries. *)
Definition correct_of (obs : list EvalObs) : nat :=
  sum_list_with (λ o, count_correct (eval_predictions o) (query_labels (eval_episode o))) obs.

Definition total_of (obs : list EvalObs) : nat :=
  sum_list_with (λ o, length (query_labels (eval_episode o))) obs.

Definition evaluate_events (model : FewShotClassifier) (data_loader : DataLoader)
    (device : string) (tqdm_prefix : option string) (obs : list EvalObs)
    (accuracy : Qc) : list event :=
  [ Ev (progress_label tqdm_prefix) (Ret ()) ]
  ++ evaluate_steps_events model data_loader device 0 obs
  ++ [ Ev (truediv (correct_of obs) (total_of obs)) (Ret accuracy) ].

(** The best validation accuracy after an epoch that measured [accuracy]. *)
Definition new_best (best accuracy : Qc) : Qc :=
  if decide (best < accuracy)%Qc then accuracy else best.

Definition epoch_events (g : Globals) (best : Qc) (epoch : nat) (o : EpochObs)
  : list event :=
  [ Ev (print ("Epoch " +:+ pretty epoch)) (Ret ()) ]
  ++ training_epoch_events (few_shot_classifier g) (train_loader (train_set g))
       (train_optimizer (few_shot_classifier g)) (epoch_steps o) (epoch_average o)
  ++ evaluate_events (few_shot_classifier g) (val_loader (val_set g)) DEVICE
       (Some "Validation") (epoch_evals o) (epoch_accuracy o)
  ++ (if decide (best < epoch_accuracy o)%Qc then
        [ Ev (state_dict (few_shot_classifier g))
             (Ret (_parameters (backbone (few_shot_classifier g))));
          Ev (print "Ding ding ding! We found a new best model!") (Ret ()) ]
      else [])
  ++ [ Ev (add_scalar (tb_writer g) "Train/loss" (epoch_average o) epoch) (Ret ());
       Ev (add_scalar (tb_writer g) "Val/acc" (epoch_accuracy o) epoch) (Ret ());
       Ev (scheduler_step (train_scheduler (few_shot_classifier g))) (Ret ()) ].

Fixpoint epochs_events (g : Globals) (best : Qc) (epoch : nat) (obs : list EpochObs)
  : list event :=
  match obs with
  | [] => []
  | o :: rest =>
      epoch_events g best epoch o
      ++ epochs_events g (new_best best (epoch_accuracy o)) (S epoch) rest
  end.

Definition loop_events (g : Globals) (obs : list EpochObs) : list event :=
  [ Ev (state_dict (few_shot_classifier g))
       (Ret (_parameters (backbone (few_shot_classifier g)))) ]
  ++ epochs_events g 0%Qc 0 obs.

Definition setup_events (g : Globals) : list event :=
  [ Ev (np_random_seed random_seed) (Ret ());
    Ev (torch_manual_seed random_seed) (Ret ());
    Ev (random_seed_ random_seed) (Ret ());
    Ev (set_cudnn_deterministic true) (Ret ());
    Ev (set_cudnn_benchmark false) (Ret ());
    Ev (CUB_load "train" true) (Ret ());
    Ev (CUB_load "val" false) (Ret ());
    Ev resnet12 (Ret (backbone (few_shot_classifier g)));
    Ev (module_to (few_shot_classifier g) DEVICE) (Ret ());
    Ev (SummaryWriter_open tb_logs_dir) (Ret ()) ].

Definition notebook_events (g : Globals) (obs : list EpochObs) (test : list EvalObs)
    (accuracy : Qc) : list event :=
  let test_set := {| split := "test"; training := false |} in
  setup_events g
  ++ loop_events g obs
  ++ [ Ev (load_state_dict (few_shot_classifier g)
             (_parameters (backbone (few_shot_classifier g)))) (Ret ());
       Ev (CUB_load "test" false) (Ret ()) ]
  ++ evaluate_events (few_shot_classifier g) (test_loader test_set) DEVICE None test accuracy
  ++ [ Ev (print_percent "Average accuracy : " (Qc_of_Z 100 * accuracy)%Qc " %") (Ret ()) ].

(** The shape of the observations of a completed run. *)
Definition epoch_shaped (o : EpochObs) : Prop :=
  length (epoch_steps o) = n_tasks_per_epoch
  ∧ py_mean (step_item <$> epoch_steps o) = Ret (epoch_average o)
  ∧ length (epoch_evals o) = n_validation_tasks
  ∧ py_truediv (correct_of (epoch_evals o)) (total_of (epoch_evals o))
    = Ret (epoch_accuracy o).

(** *** Views of a list of calls *)

(** Which loader an episode was fetched from, and where the classifier's
    state is loaded. *)
Inductive phase :=
| Fetch (split : string) (index : nat)
| Restore.

Definition phase_of (ev : event) : option phase :=
  match ev with
  | Ev c _ =>
      match c with
      | dataloader_next data_loader index =>
          Some (Fetch (split (dl_dataset data_loader)) index)
      | load_state_dict _ _ => Some Restore
      | _ => None
      end
  end.

(** One pass over a loader of [n] episodes of a split. *)
Definition pass (split : string) (n : nat) : list phase := Fetch split <$> seq 0 n.

(** What the model, the loss and the optimizer are asked to do. *)
Inductive interaction :=
| IZeroGrad
| ISupport (support_images : list image) (support_labels : list nat)
| IForward (query_images : list image) (scores : tensor)
| ILoss (scores : tensor) (labels : list nat) (loss : tensor)
| IBackward (loss : tensor)
| IStep.

Definition interaction_of (ev : event) : option interaction :=
  match ev with
  | Ev c o =>
      match c in call R return outcome R → option interaction with
      | zero_grad _ => λ _, Some IZeroGrad
      | process_support_set _ si sl => λ _, Some (ISupport si sl)
      | forward _ qi => λ o, match o with
                             | Ret scores => Some (IForward qi scores)
                             | Raise _ => None
                             end
      | CrossEntropyLoss scores labels =>
          λ o, match o with
               | Ret loss => Some (ILoss scores labels loss)
               | Raise _ => None
               end
      | backward loss => λ _, Some (IBackward loss)
      | optimizer_step _ => λ _, Some IStep
      | _ => λ _, None
      end o
  end.

(** The sequence the training step goes through for one episode. *)
Definition episode_interactions (s : StepObs) : list interaction :=
  let ep := step_episode s in
  [ IZeroGrad;
    ISupport (support_images ep) (support_labels ep);
    IForward (query_images ep) (step_scores s);
    ILoss (step_scores s) (query_labels ep) (step_loss s);
    IBackward (step_loss s);
    IStep ].

(** The episodes a loader delivered. *)
Definition delivered_of (ev : event) : option Episode :=
  match ev with
  | Ev c o =>
      match c in call R return outcome R → option Episode with
      | dataloader_next _ _ => λ o, match o with Ret ep => Some ep | Raise _ => None end
      | _ => λ _, None
      end o
  end.

(** The per-episode loss values, as [loss.item()] returned them. *)
Definition item_of (ev : event) : option Qc :=
  match ev with
  | Ev c o =>
      match c in call R return outcome R → option Qc with
      | item _ => λ o, match o with Ret x => Some x | Raise _ => None end
      | _ => λ _, None
      end o
  end.

(** The scalars sent to the logging sink. *)
Definition scalar_of (ev : event) : option (string * Qc * nat) :=
  match ev with
  | Ev c _ =>
      match c with
      | add_scalar _ tag value step => Some (tag, value, step)
      | _ => None
      end
  end.

(** The two scalars of an epoch. *)
Definition epoch_scalars (epoch : nat) (o : EpochObs) : list (string * Qc * nat) :=
  [ ("Train/loss", epoch_average o, epoch); ("Val/acc", epoch_accuracy o, epoch) ].

(** The snapshots taken: the models whose [state_dict] was called. *)
Definition snapshot_of (ev : event) : option FewShotClassifier :=
  match ev with
  | Ev c _ => match c with state_dict model => Some model | _ => None end
  end.

(** Leaving a progress bar. *)
Definition is_tqdm_exit (ev : event) : bool :=
  match ev with
  | Ev c _ => match c with tqdm_exit _ => true | _ => false end
  end.

(** The accuracies the evaluations computed: the quotients that returned. *)
Definition quotient_of (ev : event) : option Qc :=
  match ev with
  | Ev c o =>
      match c in call R return outcome R → option Qc with
      | truediv _ _ => λ o, match o with Ret x => Some x | Raise _ => None end
      | _ => λ _, None
      end o
  end.

(** The calls that write to the heap of tensors: the construction of the
    network, an optimizer step, the loading of a state dictionary.  No other
    call changes a parameter. *)
Inductive write :=
| Allocated
| Stepped (optimizer : Optimizer)
| Loaded (state : StateDict).

Definition call_write {R} (c : call R) : option write :=
  match c with
  | resnet12 => Some Allocated
  | optimizer_step optimizer => Some (Stepped optimizer)
  | load_state_dict _ state => Some (Loaded state)
  | _ => None
  end.

Definition write_of (ev : event) : option write :=
  match ev with Ev c _ => call_write c end.

(** The store once the seeding cell has run: the three generators are in the
    state their seed determines, the cuDNN flags are set. *)
Definition seeded (σ : Store) : Store :=
  set_fw {| np_rng := np_seeded random_seed;
            torch_rng := torch_seeded random_seed;
            py_rng := py_seeded random_seed;
            cudnn_deterministic := true;
            cudnn_benchmark := false;
            env := env (fw σ) |} σ.

Definition seed_events : list event :=
  [ Ev (np_random_seed 0) (Ret ());
    Ev (torch_manual_seed 0) (Ret ());
    Ev (random_seed_ 0) (Ret ());
    Ev (set_cudnn_deterministic true) (Ret ());
    Ev (set_cudnn_benchmark false) (Ret ()) ].

(** A run cut short by exception [e]: every call returned until one raised;
    after that one nothing ran but the exit of a progress bar; [e] is the
    exception raised last. *)
Definition unwound (e : exn) (t : list event) : Prop :=
  ∃ pre ev post,
    t = pre ++ ev :: post
    ∧ Forall (λ ev, raised ev = None) pre
    ∧ is_Some (raised ev)
    ∧ Forall (λ ev, is_tqdm_exit ev) post
    ∧ last (omap raised (ev :: post)) = Some e.

(** The datasets and the writer the cells before the loop build. *)
Definition set_up (g : Globals) : Prop :=
  train_set g = {| split := "train"; training := true |}
  ∧ val_set g = {| split := "val"; training := false |}
  ∧ tb_writer g = {| log_dir := tb_logs_dir |}.

(** A computation that only passes exceptions on. *)
Definition propagates {A} (m : M A) : Prop :=
  ∀ σ o σ' t, m σ = (o, σ', t) →
    match o with
    | Ret _ => Forall (λ ev, raised ev = None) t
    | Raise e => unwound e t
    end.

(** A computation that leaves every tensor of the heap as it is. *)
Definition keeps_heap {A} (m : M A) : Prop := ∀ σ, heap (m σ).1.2 = heap σ.

(** A computation that returns from every store, with a value in [Q]. *)
Definition always_returns {A} (m : M A) (Q : A → Prop) : Prop :=
  ∀ σ, ∃ a σ' t, m σ = (Ret a, σ', t) ∧ Q a.

(** A back end none of whose calls raises and whose episodes all have a
    query. *)
Definition well_behaved : Prop :=
  (∀ R (c : call R) h f, is_ret (oracle R c h f).1)
  ∧ (∀ optimizer h f, is_ret (sgd_values optimizer h f).1)
  ∧ (∀ f, is_ret (resnet12_values f).1)
  ∧ (∀ data_loader index h f episode f',
       oracle _ (dataloader_next data_loader index) h f = (Ret episode, f') →
       query_labels episode ≠ []).

(** The values now behind the references of a state dictionary. *)
Definition values_of (state : StateDict) (σ : Store) : gmap string tensor :=
  omap (λ l, heap σ !! l) state.

(** The current values of the classifier's parameters, by name. *)
Definition parameter_values (model : FewShotClassifier) (σ : Store)
  : gmap string tensor :=
  values_of (_parameters (backbone model)) σ.

(** Looking at a state dictionary in the course of a run. *)
Definition read_state (state : StateDict) : M (gmap string tensor) :=
  λ σ, (Ret (values_of state σ), σ, []).

(** *** More views *)

(** The life of the progress bar and the fetches: a bar that was built, an
    episode asked of a loader, a bar that is left. *)
Inductive bar_event :=
| Opened
| Fetched
| Closed.

Definition bar_of (ev : event) : option bar_event :=
  match ev with
  | Ev c o =>
      match c in call R return outcome R → option bar_event with
      | tqdm_new _ _ => λ o, match o with Ret _ => Some Opened | Raise _ => None end
      | dataloader_next _ _ => λ _, Some Fetched
      | tqdm_exit _ => λ _, Some Closed
      | _ => λ _, None
      end o
  end.

(** The values shown on the progress bar. *)
Definition shown_of (ev : event) : option Qc :=
  match ev with
  | Ev c _ => match c with tqdm_set_postfix _ loss => Some loss | _ => None end
  end.

(** The optimizer steps that returned: the updates of the parameters. *)
Definition update_of (ev : event) : option Optimizer :=
  match ev with
  | Ev c o =>
      match c in call R return outcome R → option Optimizer with
      | optimizer_step optimizer =>
          λ o, match o with Ret _ => Some optimizer | Raise _ => None end
      | _ => λ _, None
      end o
  end.

(** Steps of the optimizer and steps of the learning-rate scheduler. *)
Inductive pace :=
| Update
| Decay.

Definition pace_of (ev : event) : option pace :=
  match ev with
  | Ev c _ =>
      match c with
      | optimizer_step _ => Some Update
      | scheduler_step _ => Some Decay
      | _ => None
      end
  end.

(** The two scalars of epoch [epoch], with the values [av] of the loss and of
    the accuracy. *)
Definition scalars_of_epoch (epoch : nat) (av : Qc * Qc) : list (string * Qc * nat) :=
  [ ("Train/loss", av.1, epoch); ("Val/acc", av.2, epoch) ].

(** A computation none of whose calls shows in a view, however it ends. *)
Definition silent {A B} (view : event → option B) (m : M A) : Prop :=
  ∀ σ, omap view (m σ).2 = [].


(** A computation that, however it ends, has updated the parameters once for
    every episode delivered, the last one apart if it was cut short. *)
Definition paced {A} (m : M A) : Prop :=
  ∀ σ,
    let updates := length (omap update_of (m σ).2) in
    let delivered := length (omap delivered_of (m σ).2) in
    match (m σ).1.1 with
    | Ret _ => updates = delivered
    | Raise _ => updates ≤ delivered ∧ delivered ≤ S updates
    end.

End Traces.

(** ** A small back end

    One parameter, "w", a natural number, starting at 0.  Every SGD step adds
    one to it.  The scores of a forward pass are the current value of "w";
    the classifier is right on every query while "w" is at most 500 and wrong
    on every query beyond: training past 500 steps spoils the model.  Every
    episode has one support image and one query, of class 0.  Nothing
    raises, except, in the back end [broken_forward], the forward pass. *)

Module Toy.

#[global] Instance toy_values : Values :=
  {| tensor := nat; image := unit; generator := Z; Env := unit |}.

Definition toy_episode : Episode :=
  {| support_images := [()]; support_labels := [0];
     query_images := [()]; query_labels := [0]; class_ids := [0] |}.

Definition weight (model : FewShotClassifier) (h : gmap loc nat) : nat :=
  default 0 (_parameters (backbone model) !! "w" ≫= λ l, h !! l).

Definition toy_oracle (healthy : bool) (R : Type) (c : call R) (h : gmap loc nat)
    (f : Framework) : outcome R * Framework :=
  match c in call R return outcome R * Framework with
  | dataloader_next _ _ => (Ret toy_episode, f)
  | forward model _ =>
      (if healthy then Ret (weight model h) else Raise RuntimeError, f)
  | CrossEntropyLoss _ _ => (Ret 0, f)
  | item _ => (Ret 0%Qc, f)
  | argmax scores => (Ret (if Nat.leb scores 500 then [0] else [1]), f)
  | resnet12 => (Ret {| _parameters := ∅ |}, f)
  | state_dict _ => (Ret ∅, f)
  | mean _ => (Ret 0%Qc, f)
  | truediv _ _ => (Ret 0%Qc, f)
  | _ => (Ret (), f)
  end.

Definition toy_backend (healthy : bool) : Backend :=
  {| np_seeded := id; torch_seeded := id; py_seeded := id;
     resnet12_values := λ f, (Ret {[ "w" := 0 ]}, f);
     sgd_values := λ o h f, (Ret ((λ l, S (default 0 (h !! l))) <$> opt_params o), f);
     oracle := toy_oracle healthy |}.

#[global] Instance toy : Backend := toy_backend true.

Definition broken_forward : Backend := toy_backend false.

Definition toy_framework : Framework :=
  {| np_rng := 1%Z; torch_rng := 2%Z; py_rng := 3%Z;
     cudnn_deterministic := false; cudnn_benchmark := true; env := () |}.

Definition toy_store : Store :=
  {| fw := toy_framework; heap := ∅; next_loc := 0 |}.

(** The same store, the generators and the flags apart. *)
Definition toy_store_reseeded : Store :=
  {| fw := {| np_rng := 11%Z; torch_rng := 12%Z; py_rng := 13%Z;
              cudnn_deterministic := true; cudnn_benchmark := true; env := () |};
     heap := ∅; next_loc := 0 |}.

(** The globals and the store of the toy run when the loop starts, the
    parameter "w" holding [w]. *)
Definition toy_classifier : FewShotClassifier :=
  {| backbone := {| _parameters := {[ "w" := 0 ]} |} |}.

Definition toy_globals : Globals :=
  {| train_set := {| split := "train"; training := true |};
     val_set := {| split := "val"; training := false |};
     few_shot_classifier := toy_classifier;
     tb_writer := {| log_dir := tb_logs_dir |} |}.

Definition toy_at (w : nat) : Store :=
  {| fw := fw (seeded toy_store); heap := {[ 0 := w ]}; next_loc := 1 |}.

(** A loader of two episodes. *)
Definition two_tasks : DataLoader :=
  let sampler := {| sampler_dataset := train_set toy_globals; sampler_n_way := 1;
                    sampler_n_shot := 1; sampler_n_query := 1; sampler_n_tasks := 2 |} in
  {| dl_dataset := train_set toy_globals; dl_batch_sampler := sampler;
     dl_num_workers := 0; dl_pin_memory := false;
     dl_collate_fn := episodic_collate_fn_of sampler |}.

(** A loader of no episode. *)
Definition no_tasks : DataLoader :=
  let sampler := {| sampler_dataset := train_set toy_globals; sampler_n_way := 1;
                    sampler_n_shot := 1; sampler_n_query := 1; sampler_n_tasks := 0 |} in
  {| dl_dataset := train_set toy_globals; dl_batch_sampler := sampler;
     dl_num_workers := 0; dl_pin_memory := false;
     dl_collate_fn := episodic_collate_fn_of sampler |}.

(** A task of 5 classes with 15 images each, class by class. *)
Definition toy_batch : list (image * nat) := (λ i, ((), i `div` 15)) <$> seq 0 75.

(** The loop variables once the first epoch has run, and the variables of
    interest at the end of the toy run. *)
Definition best_vars : LoopVars :=
  {| best_state := {[ "w" := 0 ]}; best_validation_accuracy := 1%Qc |}.

Definition toy_final : Final :=
  {| final_globals := toy_globals; final_vars := best_vars; final_accuracy := 0%Qc |}.

(** What is compared when a toy epoch is computed: the value returned, the
    store, the accuracies and the snapshots; rationals by their reduced
    fraction. *)
Definition digest {A X} (proj : A → X) (r : outcome A * Store * list event)
  : option X * Store * list Q * list FewShotClassifier :=
  (match r.1.1 with Ret a => Some (proj a) | Raise _ => None end,
   r.1.2, this <$> omap quotient_of r.2, omap snapshot_of r.2).

Definition vars_digest (vars : LoopVars) : StateDict * Q :=
  (best_state vars, this (best_validation_accuracy vars)).

End Toy.

(** * Proofs *)

Section Proofs.
Context `{Backend}.

(** ** Runs that return *)

Lemma bind_Ret {A B} (m : M A) (f : A → M B) σ b σ' t :
  (m ≫= f) σ = (Ret b, σ', t) →
  ∃ a σ1 t1 t2, m σ = (Ret a, σ1, t1) ∧ f a σ1 = (Ret b, σ', t2) ∧ t = t1 ++ t2.
Proof.
  unfold mbind, M_bind.
  destruct (m σ) as [[[a|e] σ1] t1]; [|discriminate].
  destruct (f a σ1) as [[o σ2] t2] eqn:Hf.
  intros [= -> -> <-]. by exists a, σ1, t1, t2.
Qed.

Lemma ext_Ret {R} (c : call R) σ r σ' t :
  ext c σ = (Ret r, σ', t) → handle c σ = (Ret r, σ') ∧ t = [Ev c (Ret r)].
Proof.
  unfold ext. destruct (handle c σ) as [o σ1]. by intros [= -> -> <-].
Qed.

Lemma mret_Ret {A} (a b : A) σ σ' t :
  (mret a : M A) σ = (Ret b, σ', t) → b = a ∧ σ' = σ ∧ t = [].
Proof. by intros [= -> -> <-]. Qed.

Lemma with_tqdm_Ret {A} total desc (body : Tqdm → M A) σ a σ' t :
  with_tqdm total desc body σ = (Ret a, σ', t) →
  let bar := {| tqdm_total := total; tqdm_desc := desc |} in
  ∃ σ1 σ2 t2,
    handle (tqdm_new total desc) σ = (Ret (), σ1)
    ∧ body bar σ1 = (Ret a, σ2, t2)
    ∧ handle (tqdm_exit bar) σ2 = (Ret (), σ')
    ∧ t = [Ev (tqdm_new total desc) (Ret ())] ++ t2 ++ [Ev (tqdm_exit bar) (Ret ())].
Proof.
  unfold with_tqdm, ext. cbv zeta.
  destruct (handle (tqdm_new total desc) σ) as [[[]|e] σ1]; [|discriminate].
  destruct (body {| tqdm_total := total; tqdm_desc := desc |} σ1)
    as [[o σ2] t2] eqn:Hbody.
  destruct (handle (tqdm_exit {| tqdm_total := total; tqdm_desc := desc |}) σ2)
    as [[[]|e] σ3] eqn:Hexit; [|discriminate].
  intros [= -> -> <-]. by exists σ1, σ2, t2.
Qed.

(** Takes a run that returned apart, call by call. *)
Ltac unwind :=
  repeat match goal with
  | H : (_ ≫= _) _ = (Ret _, _, _) |- _ =>
      apply bind_Ret in H as (? & ? & ? & ? & ? & H & ->)
  | H : ext _ _ = (Ret _, _, _) |- _ =>
      apply ext_Ret in H as [H ->]
  | H : mret _ _ = (Ret _, _, _) |- _ =>
      apply mret_Ret in H as (-> & -> & ->)
  | u : unit |- _ => destruct u
  end.

(** ** Running a computation forward *)

Lemma bind_run {A B} (m : M A) (f : A → M B) σ a σ1 t1 o σ2 t2 :
  m σ = (Ret a, σ1, t1) → f a σ1 = (o, σ2, t2) → (m ≫= f) σ = (o, σ2, t1 ++ t2).
Proof. intros Hm Hf. unfold mbind, M_bind. by rewrite Hm, Hf. Qed.

Lemma ext_run {R} (c : call R) σ o σ' :
  handle c σ = (o, σ') → ext c σ = (o, σ', [Ev c o]).
Proof. intros Hc. unfold ext. by rewrite Hc. Qed.

Lemma foldM_app_run {A V} (body : V → A → M V) xs ys vars σ vars1 σ1 t1 o σ2 t2 :
  foldM body xs vars σ = (Ret vars1, σ1, t1) →
  foldM body ys vars1 σ1 = (o, σ2, t2) →
  foldM body (xs ++ ys) vars σ = (o, σ2, t1 ++ t2).
Proof.
  revert vars σ t1. induction xs as [|x xs IH]; intros vars σ t1 Hxs Hys; simpl in *.
  - by apply mret_Ret in Hxs as (-> & -> & ->).
  - apply bind_Ret in Hxs as (v & σ3 & t3 & t4 & Hbody & Hrest & ->).
    rewrite <- app_assoc. eapply bind_run; [done|]. by eapply IH.
Qed.

(** What the built-in calls return. *)
Lemma handle_mean data σ r σ' :
  handle (mean data) σ = (Ret r, σ') → py_mean data = Ret r ∧ σ' = σ.
Proof. by intros [= -> ->]. Qed.

Lemma handle_truediv a b σ r σ' :
  handle (truediv a b) σ = (Ret r, σ') → py_truediv a b = Ret r ∧ σ' = σ.
Proof. by intros [= -> ->]. Qed.

Lemma handle_state_dict model σ r σ' :
  handle (state_dict model) σ = (Ret r, σ') → r = _parameters (backbone model) ∧ σ' = σ.
Proof. by intros [= <- <-]. Qed.

(** ** The calls of a completed run *)

Lemma training_step_Ret model dl opt bar all_loss i σ all_loss' σ' t :
  training_step model dl opt bar all_loss i σ = (Ret all_loss', σ', t) →
  ∃ s, all_loss' = all_loss ++ [step_item s]
       ∧ py_mean (all_loss ++ [step_item s]) = Ret (step_running s)
       ∧ t = training_step_events model dl opt bar all_loss i s.
Proof.
  unfold training_step. intros Hrun.
  apply bind_Ret in Hrun as (ep & σ1 & t1 & t2 & Hep & Hrun & ->).
  destruct ep as [si sl qi ql ids]. unwind.
  match goal with
  | Hm : handle (mean _) _ = _ |- _ => apply handle_mean in Hm as [Hm _]
  end.
  match goal with
  | _ : handle (forward _ _) _ = (Ret ?sc, _),
    _ : handle (CrossEntropyLoss _ _) _ = (Ret ?lo, _),
    _ : handle (item _) _ = (Ret ?it, _),
    _ : py_mean _ = Ret ?ru |- _ =>
      exists {| step_episode := Build_Episode si sl qi ql ids; step_scores := sc;
                step_loss := lo; step_item := it; step_running := ru |}
  end.
  done.
Qed.

Lemma training_steps_Ret model dl opt bar n : ∀ i all_loss σ all_loss' σ' t,
  foldM (training_step model dl opt bar) (seq i n) all_loss σ = (Ret all_loss', σ', t) →
  ∃ steps, length steps = n
           ∧ all_loss' = all_loss ++ (step_item <$> steps)
           ∧ t = training_steps_events model dl opt bar all_loss i steps.
Proof.
  induction n as [|n IH]; intros i all_loss σ all_loss' σ' t Hrun; simpl in Hrun.
  - apply mret_Ret in Hrun as (-> & -> & ->). exists []. by rewrite app_nil_r.
  - apply bind_Ret in Hrun as (l1 & σ1 & t1 & t2 & Hstep & Hrest & ->).
    apply training_step_Ret in Hstep as (s & -> & _ & ->).
    apply IH in Hrest as (steps & <- & -> & ->).
    exists (s :: steps). by rewrite <- app_assoc.
Qed.

Lemma training_epoch_Ret model dl opt σ average σ' t :
  training_epoch model dl opt σ = (Ret average, σ', t) →
  ∃ steps, length steps = len dl
           ∧ py_mean (step_item <$> steps) = Ret average
           ∧ t = training_epoch_events model dl opt steps average.
Proof.
  unfold training_epoch. intros Hrun.
  apply bind_Ret in Hrun as ([] & σ1 & t1 & t2 & Htrain & Hrun & ->).
  apply ext_Ret in Htrain as [_ ->].
  apply bind_Ret in Hrun as (all_loss & σ2 & t3 & t4 & Hwith & Hmean & ->).
  apply with_tqdm_Ret in Hwith as (σ3 & σ4 & t5 & _ & Hsteps & _ & ->).
  apply training_steps_Ret in Hsteps as (steps & Hlen & -> & ->).
  apply ext_Ret in Hmean as [Hmean ->]. apply handle_mean in Hmean as [Hmean _].
  exists steps. unfold training_epoch_events. by rewrite <- !app_assoc.
Qed.

Lemma evaluate_step_Ret model dl device counts i σ counts' σ' t :
  (episode ← ext (dataloader_next dl i);
   ext (images_to (support_images episode) device);;
   ext (labels_to (support_labels episode) device);;
   ext (process_support_set model (support_images episode) (support_labels episode));;
   ext (images_to (query_images episode) device);;
   scores ← ext (forward model (query_images episode));
   predictions ← ext (argmax scores);
   mret (counts.1 + count_correct predictions (query_labels episode),
         counts.2 + length (query_labels episode))) σ = (Ret counts', σ', t) →
  ∃ o, counts' = (counts.1 + correct_of [o], counts.2 + total_of [o])
       ∧ t = evaluate_step_events model dl device i o.
Proof.
  intros Hrun. unwind.
  match goal with
  | _ : handle (dataloader_next _ _) _ = (Ret ?ep, _),
    _ : handle (forward _ _) _ = (Ret ?sc, _),
    _ : handle (argmax _) _ = (Ret ?pr, _) |- _ =>
      exists {| eval_episode := ep; eval_scores := sc; eval_predictions := pr |}
  end.
  unfold correct_of, total_of. simpl. by rewrite !Nat.add_0_r.
Qed.

Lemma evaluate_steps_Ret model dl device n : ∀ i counts σ counts' σ' t,
  foldM (λ (counts : nat * nat) index,
      episode ← ext (dataloader_next dl index);
      ext (images_to (support_images episode) device);;
      ext (labels_to (support_labels episode) device);;
      ext (process_support_set model (support_images episode) (support_labels episode));;
      ext (images_to (query_images episode) device);;
      scores ← ext (forward model (query_images episode));
      predictions ← ext (argmax scores);
      mret (counts.1 + count_correct predictions (query_labels episode),
            counts.2 + length (query_labels episode)))
    (seq i n) counts σ = (Ret counts', σ', t) →
  ∃ obs, length obs = n
         ∧ counts' = (counts.1 + correct_of obs, counts.2 + total_of obs)
         ∧ t = evaluate_steps_events model dl device i obs.
Proof.
  induction n as [|n IH]; intros i counts σ counts' σ' t Hrun; simpl in Hrun.
  - apply mret_Ret in Hrun as (-> & -> & ->). exists [].
    unfold correct_of, total_of. simpl. rewrite !Nat.add_0_r. by destruct counts.
  - apply bind_Ret in Hrun as (c1 & σ1 & t1 & t2 & Hstep & Hrest & ->).
    apply evaluate_step_Ret in Hstep as (o & -> & ->).
    apply IH in Hrest as (obs & <- & -> & ->).
    exists (o :: obs). unfold correct_of, total_of. simpl.
    rewrite !Nat.add_0_r, !Nat.add_assoc. done.
Qed.

Lemma evaluate_Ret model dl device prefix σ accuracy σ' t :
  evaluate model dl device prefix σ = (Ret accuracy, σ', t) →
  ∃ obs, length obs = len dl
         ∧ py_truediv (correct_of obs) (total_of obs) = Ret accuracy
         ∧ t = evaluate_events model dl device prefix obs accuracy.
Proof.
  unfold evaluate. intros Hrun.
  apply bind_Ret in Hrun as ([] & σ1 & t1 & t2 & Hlabel & Hrun & ->).
  apply ext_Ret in Hlabel as [_ ->].
  apply bind_Ret in Hrun as (counts & σ2 & t3 & t4 & Hsteps & Hdiv & ->).
  apply evaluate_steps_Ret in Hsteps as (obs & Hlen & -> & ->).
  apply ext_Ret in Hdiv as [Hdiv ->]. apply handle_truediv in Hdiv as [Hdiv _].
  exists obs. unfold evaluate_events. done.
Qed.

Lemma epoch_body_Ret g vars epoch σ vars' σ' t :
  epoch_body g vars epoch σ = (Ret vars', σ', t) →
  ∃ o, epoch_shaped o
       ∧ t = epoch_events g (best_validation_accuracy vars) epoch o
       ∧ vars' = (if decide (best_validation_accuracy vars < epoch_accuracy o)%Qc
                  then {| best_state := _parameters (backbone (few_shot_classifier g));
                          best_validation_accuracy := epoch_accuracy o |}
                  else vars).
Proof.
  unfold epoch_body. intros Hrun.
  apply bind_Ret in Hrun as ([] & σ1 & t1 & t2 & Hprint & Hrun & ->).
  apply ext_Ret in Hprint as [_ ->].
  apply bind_Ret in Hrun as (average & σ2 & t3 & t4 & Htrain & Hrun & ->).
  apply training_epoch_Ret in Htrain as (steps & Hsteps & Hmean & ->).
  apply bind_Ret in Hrun as (accuracy & σ3 & t5 & t6 & Heval & Hrun & ->).
  apply evaluate_Ret in Heval as (evals & Hevals & Hdiv & ->).
  apply bind_Ret in Hrun as (vars1 & σ4 & t7 & t8 & Hbest & Hrun & ->).
  exists {| epoch_steps := steps; epoch_average := average;
            epoch_evals := evals; epoch_accuracy := accuracy |}.
  split; [done|]. unfold epoch_events. simpl.
  destruct (decide (best_validation_accuracy vars < accuracy)%Qc).
  - unwind.
    match goal with
    | Hsd : handle (state_dict _) _ = _ |- _ => apply handle_state_dict in Hsd as [-> _]
    end.
    by rewrite <- !app_assoc.
  - unwind. by rewrite <- !app_assoc.
Qed.

Lemma epochs_from_Ret g n : ∀ epoch vars σ vars' σ' t,
  foldM (epoch_body g) (seq epoch n) vars σ = (Ret vars', σ', t) →
  ∃ obs, length obs = n
         ∧ Forall epoch_shaped obs
         ∧ t = epochs_events g (best_validation_accuracy vars) epoch obs
         ∧ best_validation_accuracy vars'
           = foldl new_best (best_validation_accuracy vars) (epoch_accuracy <$> obs)
         ∧ (best_state vars = _parameters (backbone (few_shot_classifier g)) →
            best_state vars' = _parameters (backbone (few_shot_classifier g))).
Proof.
  induction n as [|n IH]; intros epoch vars σ vars' σ' t Hrun; simpl in Hrun.
  - apply mret_Ret in Hrun as (-> & -> & ->). by exists [].
  - apply bind_Ret in Hrun as (vars1 & σ1 & t1 & t2 & Hbody & Hrest & ->).
    apply epoch_body_Ret in Hbody as (o & Hshape & -> & Hvars).
    apply IH in Hrest as (obs & <- & Hshapes & -> & Hbest & Hstate).
    assert (best_validation_accuracy vars1
            = new_best (best_validation_accuracy vars) (epoch_accuracy o)) as Hnew.
    { rewrite Hvars. unfold new_best. by case_decide. }
    exists (o :: obs). simpl. rewrite <- Hnew.
    repeat split; [by constructor|done|].
    intros Hparams. apply Hstate. rewrite Hvars. by case_decide.
Qed.

Lemma epochs_Ret g k σ vars σ' t :
  epochs g k σ = (Ret vars, σ', t) →
  ∃ obs, length obs = k
         ∧ Forall epoch_shaped obs
         ∧ t = loop_events g obs
         ∧ best_validation_accuracy vars = foldl new_best 0%Qc (epoch_accuracy <$> obs)
         ∧ best_state vars = _parameters (backbone (few_shot_classifier g)).
Proof.
  unfold epochs. intros Hrun.
  apply bind_Ret in Hrun as (initial & σ1 & t1 & t2 & Hsd & Hrun & ->).
  apply ext_Ret in Hsd as [Hsd ->]. apply handle_state_dict in Hsd as [-> _].
  apply epochs_from_Ret in Hrun as (obs & Hlen & Hshapes & -> & Hbest & Hstate).
  exists obs. repeat split; [done..|by apply Hstate].
Qed.

Lemma setup_Ret σ g σ' t :
  setup σ = (Ret g, σ', t) → t = setup_events g ∧ set_up g.
Proof.
  unfold setup, seed_cell, CUB_new, model_cell, SummaryWriter_new.
  intros Hrun. unwind. done.
Qed.

Lemma notebook_Ret σ final σ' t :
  notebook σ = (Ret final, σ', t) →
  ∃ obs test,
    set_up (final_globals final)
    ∧ length obs = n_epochs
    ∧ Forall epoch_shaped obs
    ∧ length test = n_test_tasks
    ∧ py_truediv (correct_of test) (total_of test) = Ret (final_accuracy final)
    ∧ t = notebook_events (final_globals final) obs test (final_accuracy final)
    ∧ best_validation_accuracy (final_vars final)
      = foldl new_best 0%Qc (epoch_accuracy <$> obs)
    ∧ best_state (final_vars final)
      = _parameters (backbone (few_shot_classifier (final_globals final))).
Proof.
  unfold notebook, training_loop. intros Hrun.
  apply bind_Ret in Hrun as (g & σ1 & t1 & t2 & Hsetup & Hrun & ->).
  apply setup_Ret in Hsetup as (-> & Hg).
  apply bind_Ret in Hrun as (vars & σ2 & t3 & t4 & Hloop & Hrun & ->).
  apply epochs_Ret in Hloop as (obs & Hlen & Hshapes & -> & Hbest & Hstate).
  apply bind_Ret in Hrun as ([] & σ3 & t5 & t6 & Hload & Hrun & ->).
  apply ext_Ret in Hload as [_ ->].
  unfold CUB_new in Hrun.
  apply bind_Ret in Hrun as (test_set & σ4 & t7 & t8 & Hcub & Hrun & ->).
  apply bind_Ret in Hcub as ([] & σ6 & t11 & t12 & Hcub & Hret & ->).
  apply ext_Ret in Hcub as [_ ->]. apply mret_Ret in Hret as (-> & -> & ->).
  apply bind_Ret in Hrun as (accuracy & σ5 & t9 & t10 & Heval & Hrun & ->).
  apply evaluate_Ret in Heval as (test & Htest & Hdiv & ->).
  unwind.
  exists obs, test. split_and!; try done.
  unfold notebook_events, setup_events, loop_events, evaluate_events.
  rewrite Hstate. simpl. by rewrite <- !app_assoc.
Qed.

(** ** Views of the calls of a completed run *)

Section Views.
Context {B : Type} (view : event → option B).

Lemma view_training_steps model dl opt bar (pick : nat → StepObs → list B) steps :
  (∀ all_loss i s,
     omap view (training_step_events model dl opt bar all_loss i s) = pick i s) →
  ∀ all_loss i,
    omap view (training_steps_events model dl opt bar all_loss i steps)
    = concat (imap (λ j, pick (i + j)) steps).
Proof.
  intros Hstep. induction steps as [|s steps IH]; intros all_loss i; [done|].
  cbn [training_steps_events]. rewrite omap_app, Hstep, IH.
  cbn [imap concat]. rewrite Nat.add_0_r. do 2 f_equal.
  apply imap_ext. intros j x _. simpl. f_equal. lia.
Qed.

Lemma view_evaluate_steps model dl device (pick : nat → EvalObs → list B) obs :
  (∀ i o, omap view (evaluate_step_events model dl device i o) = pick i o) →
  ∀ i, omap view (evaluate_steps_events model dl device i obs)
       = concat (imap (λ j, pick (i + j)) obs).
Proof.
  intros Hstep. induction obs as [|o obs IH]; intros i; [done|].
  cbn [evaluate_steps_events]. rewrite omap_app, Hstep, IH.
  cbn [imap concat]. rewrite Nat.add_0_r. do 2 f_equal.
  apply imap_ext. intros j x _. simpl. f_equal. lia.
Qed.

Lemma view_epochs g (pick : nat → EpochObs → list B) obs :
  (∀ best e o, omap view (epoch_events g best e o) = pick e o) →
  ∀ best e, omap view (epochs_events g best e obs)
            = concat (imap (λ j, pick (e + j)) obs).
Proof.
  intros Hstep. induction obs as [|o obs IH]; intros best e; [done|].
  cbn [epochs_events]. rewrite omap_app, Hstep, IH.
  cbn [imap concat]. rewrite Nat.add_0_r. do 2 f_equal.
  apply imap_ext. intros j x _. simpl. f_equal. lia.
Qed.

End Views.

Lemma concat_imap_nil {A B} (l : list A) :
  concat (imap (λ _ _, @nil B) l) = [].
Proof.
  induction l as [|x l IH]; [done|]. by rewrite imap_cons.
Qed.

Lemma concat_imap_singleton {A B} (f : nat → A → B) (l : list A) :
  concat (imap (λ i x, [f i x]) l) = imap f l.
Proof.
  revert f. induction l as [|x l IH]; intros f; [done|].
  rewrite !imap_cons. simpl. f_equal. apply (IH (f ∘ S)).
Qed.

Lemma imap_const_seq {A B} (f : nat → B) (l : list A) i :
  imap (λ j _, f (i + j)) l = f <$> seq i (length l).
Proof.
  revert i. induction l as [|x l IH]; intros i; [done|].
  rewrite imap_cons. simpl. rewrite Nat.add_0_r. f_equal.
  rewrite <- IH. apply imap_ext. intros j y _. simpl. f_equal. lia.
Qed.

Lemma imap_const_seq_0 {A B} (f : nat → B) (l : list A) :
  imap (λ j _, f j) l = f <$> seq 0 (length l).
Proof. apply (imap_const_seq f l 0). Qed.

(** *** Fetches and the restore *)

Lemma phases_training_epoch model dl opt steps average :
  omap phase_of (training_epoch_events model dl opt steps average)
  = pass (split (dl_dataset dl)) (length steps).
Proof.
  unfold training_epoch_events. rewrite !omap_app.
  rewrite (view_training_steps phase_of model dl opt _
             (λ i _, [Fetch (split (dl_dataset dl)) i])) by done.
  simpl. rewrite app_nil_r.
  by rewrite (concat_imap_singleton (λ i _, Fetch (split (dl_dataset dl)) i)),
    (imap_const_seq_0 (Fetch (split (dl_dataset dl))) steps).
Qed.

Lemma phases_evaluate model dl device prefix obs accuracy :
  omap phase_of (evaluate_events model dl device prefix obs accuracy)
  = pass (split (dl_dataset dl)) (length obs).
Proof.
  unfold evaluate_events. rewrite !omap_app.
  rewrite (view_evaluate_steps phase_of model dl device
             (λ i _, [Fetch (split (dl_dataset dl)) i])) by done.
  simpl. rewrite app_nil_r.
  by rewrite (concat_imap_singleton (λ i _, Fetch (split (dl_dataset dl)) i)),
    (imap_const_seq_0 (Fetch (split (dl_dataset dl))) obs).
Qed.

Lemma phases_epoch g best epoch o :
  omap phase_of (epoch_events g best epoch o)
  = pass (split (train_set g)) (length (epoch_steps o))
    ++ pass (split (val_set g)) (length (epoch_evals o)).
Proof.
  unfold epoch_events. rewrite !omap_app, phases_training_epoch, phases_evaluate.
  simpl. case_decide; simpl; by rewrite app_nil_r.
Qed.

Lemma concat_imap_shaped {B} (f : EpochObs → list B) (c : list B) obs :
  Forall (λ o, f o = c) obs →
  concat (imap (λ _, f) obs) = concat (replicate (length obs) c).
Proof.
  induction 1 as [|o obs Ho _ IH]; [done|].
  rewrite imap_cons. simpl. by rewrite Ho, <- IH.
Qed.

(** C2. A run of the notebook that completes fetches its episodes in this
    order: 200 times a full pass over the training loader (500 episodes)
    immediately followed by a full pass over the validation loader (100
    episodes); then the state is loaded back; then, once, a pass over the test
    loader (1000 episodes). *)
Theorem notebook_phase_order σ final σ' t :
  notebook σ = (Ret final, σ', t) →
  n_epochs = 200
  ∧ omap phase_of t
    = concat (replicate n_epochs (pass "train" n_tasks_per_epoch
                                  ++ pass "val" n_validation_tasks))
      ++ [Restore]
      ++ pass "test" n_test_tasks.
Proof.
  intros Hrun. split; [done|].
  apply notebook_Ret in Hrun
    as (obs & test & (Htrain & Hval & _) & Hlen & Hshapes & Htest & _ & -> & _).
  unfold notebook_events, loop_events. rewrite !omap_app.
  rewrite phases_evaluate, Htest.
  rewrite (view_epochs phase_of _ (λ _ o,
             pass (split (train_set (final_globals final))) (length (epoch_steps o))
             ++ pass (split (val_set (final_globals final))) (length (epoch_evals o))))
    by (intros; apply phases_epoch).
  rewrite (concat_imap_shaped _ (pass "train" n_tasks_per_epoch
                                 ++ pass "val" n_validation_tasks)).
  - rewrite Hlen. done.
  - eapply Forall_impl; [exact Hshapes|].
    intros o (-> & _ & -> & _). by rewrite Htrain, Hval.
Qed.

(** *** The training step *)

(** C3. In a call of [training_epoch] that returns, the calls on the model,
    the loss and the optimizer are, for each delivered episode in turn:
    gradients zeroed; the support images and labels of the episode given to
    [process_support_set]; the forward call on its query images, giving the
    scores; the loss of those scores against its query labels; [backward] on
    that loss; one optimizer step.  The only calls that write to the
    parameters are these optimizer steps, one per episode. *)
Theorem training_epoch_interactions model data_loader optimizer σ average σ' t :
  training_epoch model data_loader optimizer σ = (Ret average, σ', t) →
  ∃ steps,
    length steps = len data_loader
    ∧ omap delivered_of t = step_episode <$> steps
    ∧ omap interaction_of t = concat (episode_interactions <$> steps)
    ∧ omap write_of t = replicate (len data_loader) (Stepped optimizer).
Proof.
  intros Hrun. apply training_epoch_Ret in Hrun as (steps & Hlen & _ & ->).
  exists steps. split; [done|]. unfold training_epoch_events.
  rewrite !omap_app. simpl. rewrite !app_nil_r. split_and!.
  - rewrite (view_training_steps delivered_of _ _ _ _ (λ _ s, [step_episode s])) by done.
    rewrite (concat_imap_singleton (λ _ s, step_episode s)).
    apply (imap_const step_episode).
  - rewrite (view_training_steps interaction_of _ _ _ _ (λ _ s, episode_interactions s))
      by done.
    f_equal. apply (imap_const episode_interactions).
  - rewrite (view_training_steps write_of _ _ _ _ (λ _ _, [Stepped optimizer])) by done.
    rewrite (concat_imap_singleton (λ _ _, Stepped optimizer)), <- Hlen.
    rewrite (imap_const (λ _, Stepped optimizer)). by apply const_fmap.
Qed.

(** *** Logging *)

Lemma scalars_epoch g best epoch o :
  omap scalar_of (epoch_events g best epoch o) = epoch_scalars epoch o.
Proof.
  unfold epoch_events, training_epoch_events, evaluate_events. rewrite !omap_app.
  rewrite (view_training_steps scalar_of _ _ _ _ (λ _ _, [])) by done.
  rewrite (view_evaluate_steps scalar_of _ _ _ (λ _ _, [])) by done.
  rewrite !concat_imap_nil. case_decide; done.
Qed.

(** C7. In a run of the notebook that completes, the scalars sent to the
    writer are, for each epoch 0..199 in turn, the pair ("Train/loss", the
    value [training_epoch] returned in that epoch, epoch) and ("Val/acc", the
    value [evaluate] returned in that epoch, epoch), and nothing else. *)
Theorem notebook_scalars σ final σ' t :
  notebook σ = (Ret final, σ', t) →
  ∃ obs test,
    t = notebook_events (final_globals final) obs test (final_accuracy final)
    ∧ length obs = n_epochs
    ∧ n_epochs = 200
    ∧ Forall epoch_shaped obs
    ∧ omap scalar_of t = concat (imap epoch_scalars obs).
Proof.
  intros Hrun.
  apply notebook_Ret in Hrun as (obs & test & _ & Hlen & Hshapes & _ & _ & -> & _).
  exists obs, test. split_and!; [done..|].
  unfold notebook_events, loop_events, evaluate_events. rewrite !omap_app.
  rewrite (view_epochs scalar_of _ epoch_scalars) by apply scalars_epoch.
  rewrite (view_evaluate_steps scalar_of _ _ _ (λ _ _, [])) by done.
  rewrite concat_imap_nil. simpl. by rewrite app_nil_r.
Qed.

(** *** The value of [training_epoch] *)

Lemma items_training_epoch model dl opt steps average :
  omap item_of (training_epoch_events model dl opt steps average) = step_item <$> steps.
Proof.
  unfold training_epoch_events. rewrite !omap_app. simpl. rewrite app_nil_r.
  rewrite (view_training_steps item_of _ _ _ _ (λ _ s, [step_item s])) by done.
  rewrite (concat_imap_singleton (λ _ s, step_item s)).
  apply (imap_const step_item).
Qed.

(** C8. When [training_epoch] returns, the loader was not empty and the value
    is the arithmetic mean of the loss values of its episodes: their sum over
    their number.  Over an empty loader it does not return: unless switching
    the model to training mode or the progress bar raised before, the final
    [mean] of the empty list raises StatisticsError. *)
Theorem training_epoch_mean model data_loader optimizer σ o σ' t :
  training_epoch model data_loader optimizer σ = (o, σ', t) →
  (∀ average, o = Ret average →
     let losses := omap item_of t in
     len data_loader ≠ 0
     ∧ length losses = len data_loader
     ∧ average = (foldr Qcplus 0 losses / Qc_of_Z (Z.of_nat (length losses)))%Qc)
  ∧ (len data_loader = 0 →
     let bar := {| tqdm_total := 0; tqdm_desc := "Training" |} in
     ∃ e, o = Raise e
          ∧ ((e = StatisticsError ∧ last t = Some (Ev (mean []) (Raise StatisticsError)))
             ∨ last t = Some (Ev (module_train model) (Raise e))
             ∨ last t = Some (Ev (tqdm_new 0 "Training") (Raise e))
             ∨ last t = Some (Ev (tqdm_exit bar) (Raise e)))).
Proof.
  intros Hrun. split.
  - intros average ->. apply training_epoch_Ret in Hrun as (steps & Hlen & Hmean & ->).
    cbv zeta. rewrite items_training_epoch, length_fmap.
    destruct steps as [|s steps]; [discriminate|].
    split_and!; [by rewrite <- Hlen|done|].
    rewrite <- (length_fmap step_item (s :: steps)).
    rewrite fmap_cons in Hmean |- *. by injection Hmean as <-.
  - intros Hempty. cbv zeta. revert Hrun.
    unfold training_epoch, with_tqdm, ext, mbind, M_bind. rewrite Hempty. simpl.
    destruct (handle (module_train model) σ) as [[[]|e1] σ1]; simpl.
    2:{ intros [= <- <- <-]. exists e1. eauto. }
    destruct (handle (tqdm_new 0 "Training") σ1) as [[[]|e2] σ2]; simpl.
    2:{ intros [= <- <- <-]. exists e2. eauto. }
    destruct (handle (tqdm_exit _) σ2) as [[[]|e3] σ3]; simpl.
    2:{ intros [= <- <- <-]. exists e3. eauto 6. }
    intros [= <- <- <-]. exists StatisticsError. eauto.
Qed.

(** *** The accuracy *)

Lemma count_correct_le predictions labels :
  count_correct predictions labels ≤ length labels.
Proof.
  unfold count_correct.
  etrans; [apply length_filter|]. rewrite length_zip_with. lia.
Qed.

Lemma correct_le_total obs : correct_of obs ≤ total_of obs.
Proof.
  unfold correct_of, total_of. induction obs as [|o obs IH]; [done|].
  cbn [sum_list_with].
  pose proof (count_correct_le (eval_predictions o) (query_labels (eval_episode o))).
  lia.
Qed.

Lemma py_truediv_bounds a b r :
  a ≤ b → py_truediv a b = Ret r → (0 ≤ r ∧ r ≤ 1)%Qc.
Proof.
  intros Hab. unfold py_truediv. destruct b as [|b]; [discriminate|].
  intros [= <-]. unfold Qcle, Qcdiv, Qcmult, Qcinv, Q2Qc, Qc_of_Z. simpl this.
  rewrite !Qred_correct.
  assert (0 < inject_Z (Z.of_nat (S b)))%Q as Hpos.
  { change 0%Q with (inject_Z 0). rewrite <- Zlt_Qlt. lia. }
  split.
  - apply Qmult_le_0_compat.
    + change 0%Q with (inject_Z 0). rewrite <- Zle_Qle. lia.
    + apply Qinv_le_0_compat. by apply Qlt_le_weak.
  - apply Qle_shift_div_r; [done|]. rewrite Qmult_1_l, <- Zle_Qle. lia.
Qed.

(** C5. Whenever the evaluation routine returns, on any model, loader, device
    and progress label, what it returns is a number between 0 and 1. *)
Theorem evaluate_accuracy_bounds model data_loader device tqdm_prefix σ accuracy σ' t :
  evaluate model data_loader device tqdm_prefix σ = (Ret accuracy, σ', t) →
  (0 ≤ accuracy ∧ accuracy ≤ 1)%Qc.
Proof.
  intros Hrun. apply evaluate_Ret in Hrun as (obs & _ & Hdiv & _).
  eapply py_truediv_bounds; [apply correct_le_total|done].
Qed.

(** *** The best validation accuracy *)

Lemma foldM_snoc_Ret {A V} (body : V → A → M V) xs x : ∀ vars σ vars2 σ2 t2,
  foldM body (xs ++ [x]) vars σ = (Ret vars2, σ2, t2) →
  ∃ vars1 σ1 t1 tail,
    foldM body xs vars σ = (Ret vars1, σ1, t1)
    ∧ body vars1 x σ1 = (Ret vars2, σ2, tail)
    ∧ t2 = t1 ++ tail.
Proof.
  induction xs as [|y xs IH]; intros vars σ vars2 σ2 t2 Hrun; simpl in Hrun.
  - apply bind_Ret in Hrun as (v & σ1 & t1 & t3 & Hbody & Hret & ->).
    apply mret_Ret in Hret as (-> & -> & ->).
    exists vars, σ, [], t1. by rewrite app_nil_r.
  - apply bind_Ret in Hrun as (v & σ1 & t1 & t3 & Hbody & Hrest & ->).
    apply IH in Hrest as (vars1 & σ3 & t4 & tail & Hxs & Hx & ->).
    exists vars1, σ3, (t1 ++ t4), tail. split_and!; [|done|by rewrite app_assoc].
    simpl. unfold mbind, M_bind. by rewrite Hbody, Hxs.
Qed.

Lemma new_best_le best accuracy : (best ≤ new_best best accuracy)%Qc.
Proof. unfold new_best. case_decide; [by apply Qclt_le_weak|apply Qcle_refl]. Qed.

Lemma new_best_ge best accuracy : (accuracy ≤ new_best best accuracy)%Qc.
Proof. unfold new_best. case_decide; [apply Qcle_refl|by apply Qcnot_lt_le]. Qed.

Lemma foldl_new_best_le accuracies : ∀ best,
  (best ≤ foldl new_best best accuracies)%Qc.
Proof.
  induction accuracies as [|a l IH]; intros best; simpl; [apply Qcle_refl|].
  eapply Qcle_trans; [apply new_best_le|apply IH].
Qed.

Lemma foldl_new_best_max accuracies : ∀ best,
  foldl new_best best accuracies ∈ best :: accuracies
  ∧ Forall (λ a, a ≤ foldl new_best best accuracies)%Qc (best :: accuracies).
Proof.
  induction accuracies as [|a l IH]; intros best; simpl.
  - split; [apply list_elem_of_here|]. repeat constructor. apply Qcle_refl.
  - destruct (IH (new_best best a)) as [Hin Hall]. split.
    + apply elem_of_cons in Hin as [->|Hin]; [|by do 2 apply list_elem_of_further].
      unfold new_best.
      case_decide; [apply list_elem_of_further|]; apply list_elem_of_here.
    + apply Forall_cons in Hall as [Hhd Htl].
      constructor; [|constructor; [|done]].
      * eapply Qcle_trans; [apply new_best_le|done].
      * eapply Qcle_trans; [apply new_best_ge|done].
Qed.

Lemma quotients_epoch g best epoch o :
  omap quotient_of (epoch_events g best epoch o) = [epoch_accuracy o].
Proof.
  unfold epoch_events, training_epoch_events, evaluate_events. rewrite !omap_app.
  rewrite (view_training_steps quotient_of _ _ _ _ (λ _ _, [])) by done.
  rewrite (view_evaluate_steps quotient_of _ _ _ (λ _ _, [])) by done.
  rewrite !concat_imap_nil. case_decide; done.
Qed.

Lemma quotients_loop g obs :
  omap quotient_of (loop_events g obs) = epoch_accuracy <$> obs.
Proof.
  unfold loop_events. rewrite omap_app. simpl.
  rewrite (view_epochs quotient_of _ (λ _ o, [epoch_accuracy o]))
    by apply quotients_epoch.
  rewrite (concat_imap_singleton (λ _ o, epoch_accuracy o)).
  apply (imap_const epoch_accuracy).
Qed.

Lemma snapshots_epoch g best epoch o :
  omap snapshot_of (epoch_events g best epoch o)
  = if decide (best < epoch_accuracy o)%Qc then [few_shot_classifier g] else [].
Proof.
  unfold epoch_events, training_epoch_events, evaluate_events. rewrite !omap_app.
  rewrite (view_training_steps snapshot_of _ _ _ _ (λ _ _, [])) by done.
  rewrite (view_evaluate_steps snapshot_of _ _ _ (λ _ _, [])) by done.
  rewrite !concat_imap_nil. case_decide; done.
Qed.

(** C9. Stop the loop when epoch [k] has run, for any [k]:
    [best_validation_accuracy] is then the maximum of 0 and the validation
    accuracies of epochs 0..k.  It is not lower than it was before epoch [k].
    If the accuracy of epoch [k] is not strictly greater than the best before,
    equal included, the variables are unchanged and [state_dict] is not
    called; if it is strictly greater, it becomes the best and [state_dict] is
    called once. *)
Theorem best_validation_accuracy_running_maximum g k σ vars' σ' t' :
  epochs g (S k) σ = (Ret vars', σ', t') →
  let accuracies := omap quotient_of t' in
  length accuracies = S k
  ∧ best_validation_accuracy vars' ∈ 0%Qc :: accuracies
  ∧ Forall (λ a, a ≤ best_validation_accuracy vars')%Qc (0%Qc :: accuracies)
  ∧ ∃ vars σ1 t tail accuracy,
      epochs g k σ = (Ret vars, σ1, t)
      ∧ t' = t ++ tail
      ∧ omap quotient_of tail = [accuracy]
      ∧ (best_validation_accuracy vars ≤ best_validation_accuracy vars')%Qc
      ∧ ((accuracy ≤ best_validation_accuracy vars)%Qc →
         vars' = vars ∧ omap snapshot_of tail = [])
      ∧ ((best_validation_accuracy vars < accuracy)%Qc →
         best_validation_accuracy vars' = accuracy
         ∧ omap snapshot_of tail = [few_shot_classifier g]).
Proof.
  intros Hrun. cbv zeta.
  pose proof Hrun as Hshape.
  apply epochs_Ret in Hshape as (obs & Hlen & _ & Ht & Hbest & _).
  rewrite Ht, quotients_loop, length_fmap, Hbest.
  destruct (foldl_new_best_max (epoch_accuracy <$> obs) 0%Qc) as [Hin Hall].
  split_and!; [done..|].
  rewrite <- Hbest, <- Ht. clear obs Hlen Hin Hall Hbest Ht.
  revert Hrun. unfold epochs. rewrite seq_S. intros Hrun.
  apply bind_Ret in Hrun as (s0 & σ3 & t1 & t2 & Hsd & Hrun & ->).
  apply foldM_snoc_Ret in Hrun as (vars & σ1 & t3 & tail & Hloop & Hbody & ->).
  apply epoch_body_Ret in Hbody as (o & _ & -> & ->).
  exists vars, σ1, (t1 ++ t3),
    (epoch_events g (best_validation_accuracy vars) (0 + k) o), (epoch_accuracy o).
  rewrite quotients_epoch, snapshots_epoch, app_assoc.
  split_and!; [by eapply bind_run|done..| | |].
  - case_decide; [by apply Qclt_le_weak|apply Qcle_refl].
  - intros Hle. case_decide; [|done]. by destruct (Qcle_not_lt _ _ Hle).
  - intros Hlt. by case_decide.
Qed.

(** *** Episodes *)

Lemma groups_lengths {A} size n : ∀ xs : list A,
  length xs = n * size → Forall (λ g, length g = size) (groups size n xs).
Proof.
  induction n as [|n IH]; intros xs Hlen; simpl; constructor.
  - rewrite length_take. simpl in Hlen. lia.
  - apply IH. rewrite length_drop. simpl in Hlen. lia.
Qed.

Lemma length_groups {A} size n (xs : list A) : length (groups size n xs) = n.
Proof. revert xs. induction n as [|n IH]; intros xs; simpl; [done|]. by rewrite IH. Qed.

Lemma length_concat_take {A} k size (gs : list (list A)) :
  k ≤ size → Forall (λ g, length g = size) gs →
  length (concat (take k <$> gs)) = length gs * k.
Proof.
  intros Hk. induction 1 as [|g gs Hg _ IH]; [done|].
  rewrite fmap_cons. cbn [concat length]. rewrite length_app, length_take, IH. lia.
Qed.

Lemma length_concat_drop {A} k size (gs : list (list A)) :
  Forall (λ g, length g = size) gs →
  length (concat (drop k <$> gs)) = length gs * (size - k).
Proof.
  induction 1 as [|g gs Hg _ IH]; [done|].
  rewrite fmap_cons. cbn [concat length]. rewrite length_app, length_drop, IH. lia.
Qed.

Lemma episodic_collate_fn_shape self input_data episode :
  episodic_collate_fn self input_data = Ret episode →
  length (support_images episode) = sampler_n_way self * sampler_n_shot self
  ∧ length (support_labels episode) = sampler_n_way self * sampler_n_shot self
  ∧ length (query_images episode) = sampler_n_way self * sampler_n_query self
  ∧ length (query_labels episode) = sampler_n_way self * sampler_n_query self
  ∧ class_ids episode = remove_dups (input_data.*2).
Proof.
  unfold episodic_collate_fn. case_decide as Hlen; [|discriminate].
  intros [= <-]. simpl. rewrite !length_fmap.
  apply groups_lengths in Hlen.
  rewrite (length_concat_take _ _ _ (Nat.le_add_r _ _) Hlen).
  rewrite (length_concat_drop _ _ _ Hlen), length_groups.
  replace (sampler_n_shot self + sampler_n_query self - sampler_n_shot self)
    with (sampler_n_query self) by lia.
  done.
Qed.

(** C4. The collation function of each of the three loaders is the one of
    its sampler, built with 5 classes, 5 shots and 10 queries.  Every episode
    it produces is the five-field tuple that [training_epoch] unpacks, with 25
    support images and labels and 50 query images and labels. *)
Theorem episode_shapes train_set val_set test_set loader input_data episode :
  loader ∈ [train_loader train_set; val_loader val_set; test_loader test_set] →
  apply_collate (dl_collate_fn loader) input_data = Ret episode →
  let sampler := dl_batch_sampler loader in
  dl_collate_fn loader = episodic_collate_fn_of sampler
  ∧ (sampler_n_way sampler, sampler_n_shot sampler, sampler_n_query sampler) = (5, 5, 10)
  ∧ length (support_images episode) = 25
  ∧ length (support_labels episode) = 25
  ∧ length (query_images episode) = 50
  ∧ length (query_labels episode) = 50.
Proof.
  intros Hloader Hcollate. cbv zeta.
  assert (dl_collate_fn loader = episodic_collate_fn_of (dl_batch_sampler loader)
          ∧ (sampler_n_way (dl_batch_sampler loader),
             sampler_n_shot (dl_batch_sampler loader),
             sampler_n_query (dl_batch_sampler loader)) = (5, 5, 10)) as [Hfn Hshape].
  { repeat (apply elem_of_cons in Hloader as [->|Hloader]; [done|]).
    by apply elem_of_nil in Hloader. }
  rewrite Hfn in Hcollate. simpl in Hcollate.
  apply episodic_collate_fn_shape in Hcollate as (Hsi & Hsl & Hqi & Hql & _).
  split_and!; [done..| | | |];
    injection Hshape as Hn Hk Hq; rewrite Hn, ?Hk, ?Hq in *.
  - exact Hsi.
  - exact Hsl.
  - exact Hqi.
  - exact Hql.
Qed.

(** ** Exceptions *)

Lemma unwound_app_l e t1 t2 :
  Forall (λ ev, raised ev = None) t1 → unwound e t2 → unwound e (t1 ++ t2).
Proof.
  intros Hok (pre & ev & post & -> & Hpre & Hev & Hpost & Hlast).
  exists (t1 ++ pre), ev, post. rewrite <- app_assoc.
  split_and!; [done|by apply Forall_app|done..].
Qed.

Lemma unwound_exit_returned e t bar :
  unwound e t → unwound e (t ++ [Ev (tqdm_exit bar) (Ret ())]).
Proof.
  intros (pre & ev & post & -> & Hpre & Hev & Hpost & Hlast).
  exists pre, ev, (post ++ [Ev (tqdm_exit bar) (Ret ())]).
  rewrite <- app_assoc. split_and!; [done..| |].
  - apply Forall_app. split; [done|]. by repeat constructor.
  - rewrite app_comm_cons, omap_app. simpl. by rewrite app_nil_r.
Qed.

Lemma unwound_exit_raised e e0 t bar :
  unwound e0 t ∨ Forall (λ ev, raised ev = None) t →
  unwound e (t ++ [Ev (tqdm_exit bar) (Raise e)]).
Proof.
  intros [(pre & ev & post & -> & Hpre & Hev & Hpost & Hlast)|Hok].
  - exists pre, ev, (post ++ [Ev (tqdm_exit bar) (Raise e)]).
    rewrite <- app_assoc. split_and!; [done..| |].
    + apply Forall_app. split; [done|]. by repeat constructor.
    + rewrite app_comm_cons, omap_app. simpl. apply last_snoc.
  - exists t, (Ev (tqdm_exit bar) (Raise e)), [].
    split_and!; [done..|by eexists|constructor|done].
Qed.

Lemma propagates_mret {A} (a : A) : propagates (mret a).
Proof. intros σ o σ' t [= <- <- <-]. constructor. Qed.

Lemma propagates_ext {R} (c : call R) : propagates (ext c).
Proof.
  intros σ o σ' t. unfold ext. destruct (handle c σ) as [o1 σ1].
  intros [= <- <- <-]. destruct o1 as [r|e].
  - by repeat constructor.
  - exists [], (Ev c (Raise e)), []. split_and!; [done|constructor|by eexists|constructor|done].
Qed.

Lemma propagates_bind {A B} (m : M A) (f : A → M B) :
  propagates m → (∀ a, propagates (f a)) → propagates (m ≫= f).
Proof.
  intros Hm Hf σ o σ' t. unfold mbind, M_bind.
  destruct (m σ) as [[[a|e] σ1] t1] eqn:Hrun; specialize (Hm _ _ _ _ Hrun).
  - destruct (f a σ1) as [[o2 σ2] t2] eqn:Hrun2. specialize (Hf _ _ _ _ _ Hrun2).
    intros [= <- <- <-]. destruct o2.
    + by apply Forall_app.
    + by apply unwound_app_l.
  - by intros [= <- <- <-].
Qed.

Lemma propagates_foldM {A V} (body : V → A → M V) xs :
  (∀ vars x, propagates (body vars x)) → ∀ vars, propagates (foldM body xs vars).
Proof.
  intros Hbody. induction xs as [|x xs IH]; intros vars; simpl.
  - apply propagates_mret.
  - apply propagates_bind; [apply Hbody|apply IH].
Qed.

Lemma propagates_with_tqdm {A} total desc (body : Tqdm → M A) :
  (∀ bar, propagates (body bar)) → propagates (with_tqdm total desc body).
Proof.
  intros Hbody σ o σ' t. unfold with_tqdm. cbv zeta.
  destruct (ext (tqdm_new total desc) σ) as [[[[]|e] σ1] t1] eqn:Hnew;
    pose proof (propagates_ext _ _ _ _ _ Hnew) as Hok1; simpl in Hok1.
  2:{ by intros [= <- <- <-]. }
  destruct (body {| tqdm_total := total; tqdm_desc := desc |} σ1)
    as [[o2 σ2] t2] eqn:Hrun.
  specialize (Hbody _ _ _ _ _ Hrun).
  unfold ext. destruct (handle (tqdm_exit _) σ2) as [[[]|e] σ3].
  - intros [= <- <- <-]. destruct o2.
    + apply Forall_app. split; [done|]. apply Forall_app. split; [done|].
      by repeat constructor.
    + apply unwound_app_l; [done|]. by apply unwound_exit_returned.
  - intros [= <- <- <-]. apply unwound_app_l; [done|].
    destruct o2 as [a|e0].
    + apply (unwound_exit_raised e e). by right.
    + apply (unwound_exit_raised e e0). by left.
Qed.

(** Discharges [propagates] for code made of calls, binds and loops. *)
Ltac propagate :=
  repeat first
    [ apply propagates_ext
    | apply propagates_mret
    | apply propagates_with_tqdm; intros ?
    | apply propagates_foldM; intros ? ?
    | apply propagates_bind; [|intros ?]
    | match goal with |- propagates (if ?b then _ else _) => destruct b end
    | match goal with |- propagates (match ?x with Build_Episode _ _ _ _ _ => _ end) =>
        destruct x
      end ].

Lemma propagates_training_epoch model dl opt : propagates (training_epoch model dl opt).
Proof. unfold training_epoch, training_step. propagate. Qed.

Lemma propagates_evaluate model dl device prefix :
  propagates (evaluate model dl device prefix).
Proof. unfold evaluate. propagate. Qed.

Lemma propagates_epoch_body g vars epoch : propagates (epoch_body g vars epoch).
Proof.
  unfold epoch_body.
  apply propagates_bind; [propagate|intros ?].
  apply propagates_bind; [apply propagates_training_epoch|intros ?].
  apply propagates_bind; [apply propagates_evaluate|intros ?].
  propagate.
Qed.

Lemma propagates_notebook : propagates notebook.
Proof.
  unfold notebook, training_loop, epochs, setup, seed_cell, CUB_new, model_cell,
    SummaryWriter_new.
  repeat first
    [ apply propagates_evaluate
    | apply propagates_ext
    | apply propagates_mret
    | apply propagates_foldM; intros ? ?; apply propagates_epoch_body
    | apply propagates_bind; [|intros ?] ].
Qed.

(** C6. When a run of the notebook ends with an exception, that exception is
    the one an outside call raised, as it was raised: every call before
    returned, and after the call that raised nothing ran, except that a
    progress bar that was open is left ([with] runs its exit; should the exit
    itself raise, its exception is the one seen).  A run that returns saw no
    call raise. *)
Theorem exceptions_propagate σ o σ' t :
  notebook σ = (o, σ', t) →
  match o with
  | Ret _ => Forall (λ ev, raised ev = None) t
  | Raise e =>
      ∃ pre ev post,
        t = pre ++ ev :: post
        ∧ Forall (λ ev, raised ev = None) pre
        ∧ is_Some (raised ev)
        ∧ Forall (λ ev, is_tqdm_exit ev) post
        ∧ last (omap raised (ev :: post)) = Some e
  end.
Proof. apply propagates_notebook. Qed.

(** ** Seeding *)

Lemma seed_cell_run σ : seed_cell σ = (Ret (), seeded σ, seed_events).
Proof. reflexivity. Qed.

Lemma bind_trace_prefix {A B} (m : M A) (f : A → M B) σ a σ1 t1 :
  m σ = (Ret a, σ1, t1) → ∃ rest, ((m ≫= f) σ).2 = t1 ++ rest.
Proof.
  intros Hrun. unfold mbind, M_bind. rewrite Hrun.
  destruct (f a σ1) as [[o σ2] t2]. by exists t2.
Qed.

(** C10. The first calls of every run are the seeding of numpy, torch and
    Python's [random] with seed 0 and the two cuDNN flags; they leave the
    generators in the states seed 0 determines.  Hence two runs from stores
    that differ only in the state of the generators and in the flags are the
    same run: same calls with the same results, that is the same episodes
    drawn and the same initial parameters, and the same final store. *)
Theorem seeding_fixes_random_state σ1 σ2 :
  env (fw σ1) = env (fw σ2) →
  heap σ1 = heap σ2 →
  next_loc σ1 = next_loc σ2 →
  seed_cell σ1 = (Ret (), seeded σ1, seed_events)
  ∧ (∃ rest, (notebook σ1).2 = seed_events ++ rest)
  ∧ notebook σ1 = notebook σ2.
Proof.
  intros Henv Hheap Hloc. split_and!.
  - apply seed_cell_run.
  - unfold notebook.
    destruct (bind_trace_prefix seed_cell
                (λ _, train_set ← CUB_new "train" true;
                      val_set ← CUB_new "val" false;
                      few_shot_classifier ← model_cell;
                      tb_writer ← SummaryWriter_new tb_logs_dir;
                      mret {| train_set := train_set; val_set := val_set;
                              few_shot_classifier := few_shot_classifier;
                              tb_writer := tb_writer |})
                σ1 _ _ _ (seed_cell_run σ1)) as [rest1 Hsetup].
    fold setup in Hsetup.
    destruct (setup σ1) as [[[g|e] σ3] t3] eqn:Hrun; simpl in Hsetup; subst t3.
    + destruct (bind_trace_prefix setup
                  (λ g, vars ← training_loop g;
                        ext (load_state_dict (few_shot_classifier g) (best_state vars));;
                        test_set ← CUB_new "test" false;
                        accuracy ← evaluate (few_shot_classifier g) (test_loader test_set)
                                     DEVICE None;
                        ext (print_percent "Average accuracy : "
                               (Qc_of_Z 100 * accuracy)%Qc " %");;
                        mret {| final_globals := g; final_vars := vars;
                                final_accuracy := accuracy |})
                  σ1 _ _ _ Hrun) as [rest2 ->].
      exists (rest1 ++ rest2). by rewrite app_assoc.
    + exists rest1. unfold mbind at 1, M_bind at 1. by rewrite Hrun.
  - assert (seed_cell σ1 = seed_cell σ2) as Hseed.
    { rewrite !seed_cell_run. f_equal. f_equal. unfold seeded, set_fw.
      by rewrite Henv, Hheap, Hloc. }
    unfold notebook, setup, mbind, M_bind. by rewrite Hseed.
Qed.

(** ** Loading a model's own state dictionary *)

Lemma load_own_values (params : gmap string loc) (h : gmap loc tensor) :
  load_values params params h = h.
Proof.
  unfold load_values.
  enough (∀ m, m ⊆ params →
            map_fold (λ k dst h0, match params !! k with
                                  | Some src => copy_ h0 dst src
                                  | None => h0
                                  end) h m = h) as Hall by by apply Hall.
  intros m. induction m as [|k l m Hk Hfold IH] using map_first_key_ind; intros Hsub.
  - by rewrite map_fold_empty.
  - rewrite map_fold_insert_first_key by done.
    rewrite IH by (etrans; [by apply insert_subseteq|done]).
    assert (params !! k = Some l) as ->.
    { eapply lookup_weaken; [|done]. by rewrite lookup_insert_eq. }
    unfold copy_. destruct (h !! l) as [v|] eqn:Hl; [|done]. by apply insert_id.
Qed.

(** [load_state_dict] of the dictionary [state_dict] returned: the references
    in the dictionary are the parameters themselves, every tensor is copied
    onto itself and the store is as before. *)
Lemma load_own_state_dict model σ :
  handle (load_state_dict model (_parameters (backbone model))) σ = (Ret (), σ).
Proof.
  unfold handle. rewrite load_own_values, decide_True by done.
  by destruct σ.
Qed.

(** ** What touches the parameters *)

Lemma handle_keeps_heap {R} (c : call R) σ :
  call_write c = None → heap (handle c σ).2 = heap σ.
Proof.
  destruct c; intros Hc; try done; unfold handle; try done;
    by destruct (oracle _ _ _ _).
Qed.

Lemma keeps_heap_ext {R} (c : call R) :
  call_write c = None → keeps_heap (ext c).
Proof.
  intros Hc σ. unfold ext.
  pose proof (handle_keeps_heap c σ Hc) as Hheap.
  by destruct (handle c σ).
Qed.

Lemma keeps_heap_mret {A} (a : A) : keeps_heap (mret a).
Proof. done. Qed.

Lemma keeps_heap_bind {A B} (m : M A) (f : A → M B) :
  keeps_heap m → (∀ a, keeps_heap (f a)) → keeps_heap (m ≫= f).
Proof.
  intros Hm Hf σ. unfold mbind, M_bind. specialize (Hm σ).
  destruct (m σ) as [[[a|e] σ1] t1]; [|done].
  specialize (Hf a σ1). destruct (f a σ1) as [[o σ2] t2]. simpl in *. congruence.
Qed.

Lemma keeps_heap_foldM {A V} (body : V → A → M V) xs :
  (∀ vars x, keeps_heap (body vars x)) → ∀ vars, keeps_heap (foldM body xs vars).
Proof.
  intros Hbody. induction xs as [|x xs IH]; intros vars; simpl.
  - apply keeps_heap_mret.
  - apply keeps_heap_bind; [apply Hbody|apply IH].
Qed.

(** An evaluation reads the parameters and writes none. *)
Lemma keeps_heap_evaluate model dl device prefix :
  keeps_heap (evaluate model dl device prefix).
Proof.
  unfold evaluate.
  repeat first
    [ by apply keeps_heap_ext
    | apply keeps_heap_mret
    | apply keeps_heap_foldM; intros ? ?
    | apply keeps_heap_bind; [|intros ?] ].
Qed.

(** In every run that completes, the parameters at the end are those the
    last epoch left: loading [best_state] back changes none, and nothing
    after the loop writes them. *)
Lemma restore_changes_nothing σ final σ' t :
  notebook σ = (Ret final, σ', t) →
  ∃ σ0 t0 σ1 t1,
    setup σ = (Ret (final_globals final), σ0, t0)
    ∧ training_loop (final_globals final) σ0 = (Ret (final_vars final), σ1, t1)
    ∧ heap σ' = heap σ1.
Proof.
  unfold notebook. intros Hrun.
  apply bind_Ret in Hrun as (g & σ0 & t0 & t2 & Hsetup & Hrun & ->).
  apply bind_Ret in Hrun as (vars & σ1 & t1 & t3 & Hloop & Hrun & ->).
  pose proof Hloop as Hstate. apply epochs_Ret in Hstate as (_ & _ & _ & _ & _ & Hstate).
  rewrite Hstate in Hrun.
  apply bind_Ret in Hrun as ([] & σ2 & t4 & t5 & Hload & Hrun & ->).
  apply ext_Ret in Hload as [Hload _].
  rewrite load_own_state_dict in Hload. injection Hload as <-.
  apply bind_Ret in Hrun as (test_set & σ3 & t6 & t7 & Hcub & Hrun & ->).
  apply bind_Ret in Hrun as (accuracy & σ4 & t8 & t9 & Heval & Hrun & ->).
  apply bind_Ret in Hrun as ([] & σ5 & t10 & t11 & Hprint & Hret & ->).
  apply mret_Ret in Hret as (-> & -> & ->).
  exists σ0, t0, σ1, t1. split_and!; [done..|]. simpl.
  assert (heap σ3 = heap σ1) as <-.
  { assert (keeps_heap (CUB_new "test" false)) as Hkeep.
    { unfold CUB_new. apply keeps_heap_bind; [by apply keeps_heap_ext|].
      intros ?. apply keeps_heap_mret. }
    specialize (Hkeep σ1). by rewrite Hcub in Hkeep. }
  assert (heap σ4 = heap σ3) as <-.
  { pose proof (keeps_heap_evaluate (few_shot_classifier g)
                  (test_loader test_set) DEVICE None σ3) as Hkeep.
    by rewrite Heval in Hkeep. }
  pose proof (keeps_heap_ext (print_percent "Average accuracy : "
                                (Qc_of_Z 100 * accuracy)%Qc " %") eq_refl σ4) as Hkeep.
  by rewrite Hprint in Hkeep.
Qed.

(** ** When the notebook returns *)

Lemma always_returns_mret {A} (a : A) (Q : A → Prop) :
  Q a → always_returns (mret a) Q.
Proof. intros Ha σ. by exists a, σ, []. Qed.

Lemma always_returns_bind {A B} (m : M A) (f : A → M B) (P : A → Prop) (Q : B → Prop) :
  always_returns m P → (∀ a, P a → always_returns (f a) Q) →
  always_returns (m ≫= f) Q.
Proof.
  intros Hm Hf σ. destruct (Hm σ) as (a & σ1 & t1 & Hrun1 & Ha).
  destruct (Hf a Ha σ1) as (b & σ2 & t2 & Hrun2 & Hb).
  exists b, σ2, (t1 ++ t2). split; [|done]. by eapply bind_run.
Qed.

Lemma always_returns_foldM {A V} (body : V → A → M V) (I : nat → V → Prop) xs :
  (∀ i vars x, I i vars → always_returns (body vars x) (I (S i))) →
  ∀ i vars, I i vars → always_returns (foldM body xs vars) (I (i + length xs)).
Proof.
  intros Hbody. induction xs as [|x xs IH]; intros i vars Hvars; simpl.
  - apply always_returns_mret. by rewrite Nat.add_0_r.
  - eapply always_returns_bind; [by apply Hbody|].
    intros vars' Hvars'. replace (i + S (length xs)) with (S i + length xs) by lia.
    by apply IH.
Qed.

(** A call the back end answers returns when the back end raises nothing. *)
Lemma always_returns_oracle {R} (c : call R) :
  (∀ R (c : call R) h f, is_ret (oracle R c h f).1) →
  match c with
  | np_random_seed _ | torch_manual_seed _ | random_seed_ _
  | set_cudnn_deterministic _ | set_cudnn_benchmark _
  | resnet12 | optimizer_step _ | state_dict _ | load_state_dict _ _
  | mean _ | truediv _ _ => False
  | _ => True
  end →
  always_returns (ext c) (λ r, ∃ h f f', oracle R c h f = (Ret r, f')).
Proof.
  intros Hquiet Hc σ.
  assert (handle c σ = (let '(o, f) := oracle R c (heap σ) (fw σ) in (o, set_fw f σ)))
    as Hhandle by (by destruct c).
  unfold ext. rewrite Hhandle.
  specialize (Hquiet R c (heap σ) (fw σ)).
  destruct (oracle R c (heap σ) (fw σ)) as [[r|e] f'] eqn:Horacle; [|done].
  exists r, (set_fw f' σ), [Ev c (Ret r)]. eauto.
Qed.

Lemma always_returns_with_tqdm {A} total desc (body : Tqdm → M A) (Q : A → Prop) :
  (∀ R (c : call R) h f, is_ret (oracle R c h f).1) →
  (∀ bar, always_returns (body bar) Q) →
  always_returns (with_tqdm total desc body) Q.
Proof.
  intros Hquiet Hbody σ. unfold with_tqdm.
  destruct (always_returns_oracle (tqdm_new total desc) Hquiet I σ)
    as ([] & σ1 & t1 & -> & _).
  destruct (Hbody {| tqdm_total := total; tqdm_desc := desc |} σ1)
    as (a & σ2 & t2 & -> & Ha).
  destruct (always_returns_oracle
              (tqdm_exit {| tqdm_total := total; tqdm_desc := desc |}) Hquiet I σ2)
    as ([] & σ3 & t3 & -> & _).
  by exists a, σ3, (t1 ++ t2 ++ t3).
Qed.

Lemma always_returns_mean data :
  data ≠ [] → always_returns (ext (mean data)) (λ _, True).
Proof.
  intros Hdata σ. destruct data as [|x data]; [done|].
  eexists _, σ, _. split; [|done]. by apply ext_run.
Qed.

Lemma always_returns_optimizer_step optimizer :
  (∀ optimizer h f, is_ret (sgd_values optimizer h f).1) →
  always_returns (ext (optimizer_step optimizer)) (λ _, True).
Proof.
  intros Hquiet σ. unfold ext, handle. specialize (Hquiet optimizer (heap σ) (fw σ)).
  destruct (sgd_values optimizer (heap σ) (fw σ)) as [[vs|e] f]; [|done].
  by eexists _, _, _.
Qed.

Lemma always_returns_state_dict model :
  always_returns (ext (state_dict model)) (λ state, state = _parameters (backbone model)).
Proof. intros σ. by eexists _, σ, _. Qed.

(** If the back end is well behaved, the evaluation over a loader that is
    not empty returns. *)
Lemma evaluate_returns model dl device prefix :
  well_behaved → 0 < len dl →
  always_returns (evaluate model dl device prefix) (λ _, True).
Proof.
  intros (Hquiet & _ & _ & Hquery) Hlen.
  unfold evaluate.
  eapply always_returns_bind; [by apply always_returns_oracle|]. intros _ _.
  eapply always_returns_bind.
  { apply (always_returns_foldM _ (λ i (counts : nat * nat), i ≤ counts.2) _) with (i := 0);
      [|simpl; lia].
    intros i counts index Hcounts.
    eapply always_returns_bind; [by apply always_returns_oracle|].
    intros ep (h & f & f' & Hep). apply Hquery in Hep.
    do 4 (eapply always_returns_bind; [by apply always_returns_oracle|]; intros _ _).
    eapply always_returns_bind; [by apply always_returns_oracle|]. intros scores _.
    eapply always_returns_bind; [by apply always_returns_oracle|]. intros predictions _.
    apply always_returns_mret. simpl.
    destruct (query_labels ep); [done|]. simpl. lia. }
  intros counts Hcounts. simpl in Hcounts. rewrite length_seq in Hcounts.
  intros σ0. destruct counts as [correct [|total]]; simpl in *; [lia|].
  eexists _, σ0, _. split; [|done]. by apply ext_run.
Qed.

(** If the back end is well behaved, [training_epoch] over a loader that is
    not empty returns. *)
Lemma training_epoch_returns model dl opt :
  well_behaved → 0 < len dl →
  always_returns (training_epoch model dl opt) (λ _, True).
Proof.
  intros (Hquiet & Hsgd & _ & _) Hlen. unfold training_epoch.
  eapply always_returns_bind; [by apply always_returns_oracle|]. intros _ _.
  eapply always_returns_bind.
  { apply always_returns_with_tqdm; [done|]. intros bar.
    apply (always_returns_foldM _ (λ i (all_loss : list Qc), length all_loss = i) _)
      with (i := 0); [|done].
    intros i all_loss index Hall. unfold training_step.
    eapply always_returns_bind; [by apply always_returns_oracle|].
    intros [si sl qi ql ids] _.
    do 5 (eapply always_returns_bind; [by apply always_returns_oracle|]; intros _ _).
    eapply always_returns_bind; [by apply always_returns_oracle|]. intros scores _.
    eapply always_returns_bind; [by apply always_returns_oracle|]. intros _ _.
    eapply always_returns_bind; [by apply always_returns_oracle|]. intros loss _.
    eapply always_returns_bind; [by apply always_returns_oracle|]. intros _ _.
    eapply always_returns_bind; [by apply always_returns_optimizer_step|]. intros _ _.
    eapply always_returns_bind; [by apply always_returns_oracle|]. intros loss_item _.
    eapply always_returns_bind; [apply always_returns_mean; by destruct all_loss|].
    intros running _.
    eapply always_returns_bind; [by apply always_returns_oracle|]. intros _ _.
    apply always_returns_mret. rewrite length_app. simpl. lia. }
  intros all_loss Hall. simpl in Hall. rewrite length_seq in Hall.
  eapply always_returns_mean. destruct all_loss; [simpl in Hall; lia|done].
Qed.

Lemma always_returns_handled {R} (c : call R) (r : R) (next : Store → Store) :
  (∀ σ, handle c σ = (Ret r, next σ)) → always_returns (ext c) (λ _, True).
Proof.
  intros Hc σ. exists r, (next σ), [Ev c (Ret r)]. split; [|done]. by apply ext_run.
Qed.

Lemma always_returns_resnet12 :
  (∀ f, is_ret (resnet12_values f).1) → always_returns (ext resnet12) (λ _, True).
Proof.
  intros Hquiet σ. unfold ext, handle. specialize (Hquiet (fw σ)).
  destruct (resnet12_values (fw σ)) as [[init|e] f]; [|done].
  destruct (alloc (map_to_list init) (next_loc σ) (heap σ)) as [[ps h] n].
  by eexists _, _, _.
Qed.

Lemma setup_returns : well_behaved → always_returns setup (λ _, True).
Proof.
  intros (Hquiet & _ & Hinit & _).
  unfold setup, seed_cell, CUB_new, model_cell, SummaryWriter_new.
  eapply always_returns_bind with (P := λ _, True).
  { do 4 (eapply always_returns_bind;
            [by eapply always_returns_handled; intros; reflexivity|]; intros _ _).
    by eapply always_returns_handled; intros; reflexivity. }
  intros _ _.
  do 2 (eapply always_returns_bind with (P := λ _, True);
          [eapply always_returns_bind; [by apply always_returns_oracle|];
           intros _ _; by apply always_returns_mret|]; intros ? _).
  eapply always_returns_bind with (P := λ _, True).
  { eapply always_returns_bind; [by apply always_returns_resnet12|]. intros ? _.
    eapply always_returns_bind; [by apply always_returns_oracle|]. intros _ _.
    by apply always_returns_mret. }
  intros ? _.
  eapply always_returns_bind with (P := λ _, True).
  { eapply always_returns_bind; [by apply always_returns_oracle|]. intros _ _.
    by apply always_returns_mret. }
  intros ? _. by apply always_returns_mret.
Qed.

Lemma epoch_body_returns g vars epoch :
  well_behaved →
  best_state vars = _parameters (backbone (few_shot_classifier g)) →
  always_returns (epoch_body g vars epoch)
    (λ vars', best_state vars' = _parameters (backbone (few_shot_classifier g))).
Proof.
  intros Hwell Hvars. pose proof Hwell as (Hquiet & _). unfold epoch_body.
  eapply always_returns_bind; [by apply always_returns_oracle|]. intros _ _.
  eapply always_returns_bind;
    [apply training_epoch_returns; [done|unfold len; simpl; unfold n_tasks_per_epoch; lia]|].
  intros average _.
  eapply always_returns_bind;
    [apply evaluate_returns; [done|unfold len; simpl; unfold n_validation_tasks; lia]|].
  intros accuracy _.
  eapply always_returns_bind
    with (P := λ vars', best_state vars'
                        = _parameters (backbone (few_shot_classifier g))).
  { case_decide.
    - eapply always_returns_bind; [apply always_returns_state_dict|]. intros state ->.
      eapply always_returns_bind; [by apply always_returns_oracle|]. intros _ _.
      by apply always_returns_mret.
    - by apply always_returns_mret. }
  intros vars' Hvars'.
  do 3 (eapply always_returns_bind; [by apply always_returns_oracle|]; intros _ _).
  by apply always_returns_mret.
Qed.

Lemma epochs_returns g k :
  well_behaved →
  always_returns (epochs g k)
    (λ vars, best_state vars = _parameters (backbone (few_shot_classifier g))).
Proof.
  intros Hwell. unfold epochs.
  eapply always_returns_bind; [apply always_returns_state_dict|]. intros state ->.
  apply (always_returns_foldM _
           (λ _ vars, best_state vars = _parameters (backbone (few_shot_classifier g))) _)
    with (i := 0); [|done].
  intros i vars epoch Hvars. by apply epoch_body_returns.
Qed.

(** If the back end is well behaved, the notebook runs to its end. *)
Lemma notebook_returns σ :
  well_behaved → ∃ final σ' t, notebook σ = (Ret final, σ', t).
Proof.
  intros Hwell. pose proof Hwell as (Hquiet & _).
  enough (always_returns notebook (λ _, True)) as Hall.
  { destruct (Hall σ) as (final & σ' & t & Hrun & _). eauto. }
  unfold notebook, training_loop.
  eapply always_returns_bind; [by apply setup_returns|]. intros g _.
  eapply always_returns_bind; [by apply epochs_returns|]. intros vars ->.
  eapply always_returns_bind;
    [eapply always_returns_handled; intros; apply load_own_state_dict|].
  intros _ _.
  eapply always_returns_bind with (P := λ _, True).
  { unfold CUB_new. eapply always_returns_bind; [by apply always_returns_oracle|].
    intros _ _. by apply always_returns_mret. }
  intros test_set _.
  eapply always_returns_bind;
    [apply evaluate_returns; [done|unfold len; simpl; unfold n_test_tasks; lia]|].
  intros accuracy _.
  eapply always_returns_bind; [by apply always_returns_oracle|]. intros _ _.
  by apply always_returns_mret.
Qed.



(** ** Further properties of the notebook's code *)

(** *** Calls that do not show in a view *)

Lemma bind_trace {A B} (m : M A) (f : A → M B) σ :
  ((m ≫= f) σ).2
  = match m σ with
    | (Ret a, σ1, t1) => t1 ++ (f a σ1).2
    | (Raise _, _, t1) => t1
    end.
Proof.
  unfold mbind, M_bind. destruct (m σ) as [[[a|e] σ1] t1]; [|done].
  by destruct (f a σ1) as [[o σ2] t2].
Qed.

Lemma bind_outcome {A B} (m : M A) (f : A → M B) σ :
  ((m ≫= f) σ).1.1
  = match m σ with
    | (Ret a, σ1, _) => (f a σ1).1.1
    | (Raise e, _, _) => Raise e
    end.
Proof.
  unfold mbind, M_bind. destruct (m σ) as [[[a|e] σ1] t1]; [|done].
  by destruct (f a σ1) as [[o σ2] t2].
Qed.

Lemma ext_trace {R} (c : call R) σ : (ext c σ).2 = [Ev c (handle c σ).1].
Proof. unfold ext. by destruct (handle c σ). Qed.

Lemma ext_cases {R} (c : call R) σ :
  ext c σ = ((handle c σ).1, (handle c σ).2, [Ev c (handle c σ).1]).
Proof. unfold ext. by destruct (handle c σ). Qed.

Section Silent.
Context {B : Type} (view : event → option B).

Lemma omap_hidden (ev : event) : view ev = None → omap view [ev] = [].
Proof. intros Hev. simpl. by rewrite Hev. Qed.

Lemma silent_mret {A} (a : A) : silent view (mret a).
Proof. done. Qed.

Lemma silent_ext {R} (c : call R) :
  (∀ o, view (Ev c o) = None) → silent view (ext c).
Proof. intros Hc σ. rewrite ext_trace. simpl. by rewrite Hc. Qed.

Lemma silent_bind {A C} (m : M A) (f : A → M C) :
  silent view m → (∀ a, silent view (f a)) → silent view (m ≫= f).
Proof.
  intros Hm Hf σ. rewrite bind_trace. specialize (Hm σ).
  destruct (m σ) as [[[a|e] σ1] t1]; [|done].
  simpl in Hm. by rewrite omap_app, Hm, (Hf a σ1).
Qed.

Lemma silent_foldM {A V} (body : V → A → M V) xs :
  (∀ vars x, silent view (body vars x)) → ∀ vars, silent view (foldM body xs vars).
Proof.
  intros Hbody. induction xs as [|x xs IH]; intros vars; simpl.
  - apply silent_mret.
  - apply silent_bind; [apply Hbody|apply IH].
Qed.

Lemma silent_with_tqdm {A} total desc (body : Tqdm → M A) :
  (∀ o, view (Ev (tqdm_new total desc) o) = None) →
  (∀ bar o, view (Ev (tqdm_exit bar) o) = None) →
  (∀ bar, silent view (body bar)) →
  silent view (with_tqdm total desc body).
Proof.
  intros Hnew Hexit Hbody σ. unfold with_tqdm, ext. cbv zeta.
  destruct (handle (tqdm_new total desc) σ) as [[[]|e] σ1]; cbn [snd].
  2:{ by apply omap_hidden. }
  specialize (Hbody {| tqdm_total := total; tqdm_desc := desc |} σ1).
  destruct (body _ σ1) as [[o σ2] t2]. cbn [snd] in Hbody.
  destruct (handle (tqdm_exit _) σ2) as [[[]|e] σ3]; cbn [snd];
    by rewrite !omap_app, Hbody, !omap_hidden.
Qed.

End Silent.

(** Discharges [silent] for code made of calls, binds and loops. *)
Ltac hush :=
  repeat first
    [ apply silent_mret
    | apply silent_ext; intros ?; reflexivity
    | apply silent_with_tqdm; [intros ?; reflexivity|intros ? ?; reflexivity|intros ?]
    | apply silent_foldM; intros ? ?
    | apply silent_bind; [|intros ?]
    | match goal with |- silent _ (if ?b then _ else _) => destruct b end
    | match goal with |- silent _ (match ?x with Build_Episode _ _ _ _ _ => _ end) =>
        destruct x
      end ].

(** *** The restore and the snapshot *)

(** X1. In every run of the notebook that completes, on every back end, the
    parameters of the classifier when the last cell has run are those the
    training loop left: [load_state_dict(best_state)] and the cells after it
    change none of them. *)
Theorem restore_leaves_last_epoch_parameters σ final σ' t :
  notebook σ = (Ret final, σ', t) →
  ∃ σ0 t0 σ1 t1,
    setup σ = (Ret (final_globals final), σ0, t0)
    ∧ training_loop (final_globals final) σ0 = (Ret (final_vars final), σ1, t1)
    ∧ parameter_values (few_shot_classifier (final_globals final)) σ'
      = parameter_values (few_shot_classifier (final_globals final)) σ1.
Proof.
  intros Hrun.
  apply restore_changes_nothing in Hrun as (σ0 & t0 & σ1 & t1 & Hsetup & Hloop & Hheap).
  exists σ0, t0, σ1, t1. split_and!; [done..|].
  unfold parameter_values, values_of. by rewrite Hheap.
Qed.

(** X2. Stop the loop after any number of epochs: what [best_state] holds,
    read then, is the current value of every parameter of the classifier,
    whichever epoch the snapshot was taken in. *)
Theorem best_state_reads_current_parameters g k σ vars σ' t :
  epochs g k σ = (Ret vars, σ', t) →
  values_of (best_state vars) σ' = parameter_values (few_shot_classifier g) σ'.
Proof.
  intros Hrun. apply epochs_Ret in Hrun as (_ & _ & _ & _ & _ & Hstate).
  unfold parameter_values. by rewrite Hstate.
Qed.

(** *** Optimizer steps and scheduler steps *)

Lemma paces_training_epoch model dl opt steps average :
  omap pace_of (training_epoch_events model dl opt steps average)
  = replicate (length steps) Update.
Proof.
  unfold training_epoch_events. rewrite !omap_app. simpl. rewrite app_nil_r.
  rewrite (view_training_steps pace_of _ _ _ _ (λ _ _, [Update])) by done.
  rewrite (concat_imap_singleton (λ _ _, Update)), (imap_const (λ _, Update)).
  by apply const_fmap.
Qed.

Lemma paces_evaluate model dl device prefix obs accuracy :
  omap pace_of (evaluate_events model dl device prefix obs accuracy) = [].
Proof.
  unfold evaluate_events. rewrite !omap_app.
  rewrite (view_evaluate_steps pace_of _ _ _ (λ _ _, [])) by done.
  by rewrite concat_imap_nil.
Qed.

Lemma paces_epoch g best epoch o :
  omap pace_of (epoch_events g best epoch o)
  = replicate (length (epoch_steps o)) Update ++ [Decay].
Proof.
  unfold epoch_events. rewrite !omap_app, paces_training_epoch, paces_evaluate.
  simpl. by case_decide.
Qed.

(** X3. In a run of the notebook that completes, the steps of the optimizer
    and of the learning-rate scheduler come in this order: 200 times, the 500
    optimizer steps of an epoch and then one scheduler step.  The scheduler
    never steps before the optimizer steps of its epoch, and nothing after
    the loop steps either. *)
Theorem optimizer_steps_before_scheduler_step σ final σ' t :
  notebook σ = (Ret final, σ', t) →
  omap pace_of t
  = concat (replicate n_epochs (replicate n_tasks_per_epoch Update ++ [Decay])).
Proof.
  intros Hrun.
  apply notebook_Ret in Hrun as (obs & test & _ & Hlen & Hshapes & _ & _ & -> & _).
  unfold notebook_events, loop_events. rewrite !omap_app, paces_evaluate.
  rewrite (view_epochs pace_of _ (λ _ o, replicate (length (epoch_steps o)) Update
                                          ++ [Decay]))
    by (intros; apply paces_epoch).
  rewrite (concat_imap_shaped _ (replicate n_tasks_per_epoch Update ++ [Decay])).
  - rewrite Hlen. cbn [setup_events omap pace_of app]. by rewrite app_nil_r.
  - eapply Forall_impl; [exact Hshapes|]. by intros o (-> & _).
Qed.

(** *** The progress bar of [training_epoch] *)

Lemma bar_training_step model dl opt bar all_loss i σ :
  omap bar_of (training_step model dl opt bar all_loss i σ).2 = [Fetched].
Proof.
  unfold training_step. rewrite bind_trace. unfold ext at 1.
  destruct (handle (dataloader_next dl i) σ) as [[ep|e] σ1]; [|done].
  rewrite omap_app.
  match goal with
  | |- context [ (?m σ1).2 ] =>
      assert (silent bar_of m) as Hrest by (destruct ep; hush); by rewrite (Hrest σ1)
  end.
Qed.

Lemma bar_training_steps model dl opt bar n : ∀ i all_loss σ,
  ∃ k, k ≤ n
       ∧ (is_ret (foldM (training_step model dl opt bar) (seq i n) all_loss σ).1.1 → k = n)
       ∧ omap bar_of (foldM (training_step model dl opt bar) (seq i n) all_loss σ).2
         = replicate k Fetched.
Proof.
  induction n as [|n IH]; intros i all_loss σ.
  - by exists 0.
  - cbn [seq foldM]. rewrite bind_trace, bind_outcome.
    pose proof (bar_training_step model dl opt bar all_loss i σ) as Hstep.
    destruct (training_step model dl opt bar all_loss i σ) as [[[l1|e] σ1] t1];
      cbn [snd] in Hstep.
    + destruct (IH (S i) l1 σ1) as (k & Hk & Hret & Hbar).
      exists (S k). rewrite omap_app, Hstep, Hbar.
      split_and!; [lia| |done]. intros Ho. f_equal. by apply Hret.
    + exists 1. rewrite Hstep. split_and!; [lia|done..].
Qed.

(** X4. However a call of [training_epoch] ends, by returning or by an
    exception of any call, a progress bar that was opened is left, once, and
    every fetch from the loader happens between the two; the loader is asked
    for at most [len(data_loader)] episodes, and for exactly that many when
    the call returns.  When no bar is opened nothing is fetched and the call
    does not return. *)
Theorem progress_bar_always_closed model data_loader optimizer σ o σ' t :
  training_epoch model data_loader optimizer σ = (o, σ', t) →
  (is_ret o = false ∧ omap bar_of t = [])
  ∨ ∃ k, k ≤ len data_loader
         ∧ (is_ret o → k = len data_loader)
         ∧ omap bar_of t = [Opened] ++ replicate k Fetched ++ [Closed].
Proof.
  intros Hrun.
  assert (t = (training_epoch model data_loader optimizer σ).2
          ∧ o = (training_epoch model data_loader optimizer σ).1.1) as [-> ->]
    by (by rewrite Hrun).
  clear Hrun. unfold training_epoch. rewrite bind_trace, bind_outcome, ext_cases.
  destruct (handle (module_train model) σ) as [[[]|e] σ1]; cbn [fst snd]; [|by left].
  rewrite bind_trace, bind_outcome. unfold with_tqdm. cbv zeta.
  rewrite ext_cases.
  destruct (handle (tqdm_new (len data_loader) "Training") σ1) as [[[]|e] σ2];
    cbn [fst snd]; [|by left].
  destruct (bar_training_steps model data_loader optimizer
              {| tqdm_total := len data_loader; tqdm_desc := "Training" |}
              (len data_loader) 0 [] σ2) as (k & Hk & Hret & Hbar).
  destruct (foldM _ _ _ σ2) as [[o2 σ3] t3]. cbn [fst snd] in Hret, Hbar.
  right. exists k. split; [done|].
  rewrite ext_cases.
  destruct (handle (tqdm_exit _) σ3) as [[[]|e] σ4]; cbn [fst snd].
  - destruct o2 as [all_loss|e]; [rewrite ext_cases; cbn [fst snd]|];
      (split; [intros Ho; try done; by apply Hret|]);
      rewrite !omap_app, Hbar; simpl; by rewrite ?app_nil_r.
  - split; [done|]. by rewrite !omap_app, Hbar.
Qed.

(** *** The loss shown on the progress bar *)

Lemma training_steps_running model dl opt bar n : ∀ i all_loss σ all_loss' σ' t,
  foldM (training_step model dl opt bar) (seq i n) all_loss σ = (Ret all_loss', σ', t) →
  ∃ steps, length steps = n
           ∧ all_loss' = all_loss ++ (step_item <$> steps)
           ∧ t = training_steps_events model dl opt bar all_loss i steps
           ∧ ∀ j s, steps !! j = Some s →
                    py_mean (all_loss ++ take (S j) (step_item <$> steps))
                    = Ret (step_running s).
Proof.
  induction n as [|n IH]; intros i all_loss σ all_loss' σ' t Hrun; simpl in Hrun.
  - apply mret_Ret in Hrun as (-> & -> & ->). exists []. by rewrite app_nil_r.
  - apply bind_Ret in Hrun as (l1 & σ1 & t1 & t2 & Hstep & Hrest & ->).
    apply training_step_Ret in Hstep as (s & -> & Hmean & ->).
    apply IH in Hrest as (steps & <- & -> & -> & Hlater).
    exists (s :: steps). split_and!; [done|by rewrite <- app_assoc|done|].
    intros [|j] s' Hs'.
    + injection Hs' as <-. done.
    + rewrite fmap_cons, firstn_cons, cons_middle, app_assoc. by apply Hlater.
Qed.

Lemma shown_training_epoch model dl opt steps average :
  omap shown_of (training_epoch_events model dl opt steps average)
  = step_running <$> steps.
Proof.
  unfold training_epoch_events. rewrite !omap_app. simpl. rewrite app_nil_r.
  rewrite (view_training_steps shown_of _ _ _ _ (λ _ s, [step_running s])) by done.
  rewrite (concat_imap_singleton (λ _ s, step_running s)).
  apply (imap_const step_running).
Qed.

(** X5. In a call of [training_epoch] that returns, the progress bar is given
    a loss once per episode; the value it is given after episode [i] is the
    mean of the losses of episodes [0..i], and the last value it shows is the
    value the call returns. *)
Theorem progress_bar_shows_running_mean model data_loader optimizer σ average σ' t :
  training_epoch model data_loader optimizer σ = (Ret average, σ', t) →
  let losses := omap item_of t in
  let shown := omap shown_of t in
  length shown = len data_loader
  ∧ (∀ i r, shown !! i = Some r → py_mean (take (S i) losses) = Ret r)
  ∧ last shown = Some average.
Proof.
  unfold training_epoch. intros Hrun.
  apply bind_Ret in Hrun as ([] & σ1 & t1 & t2 & Htrain & Hrun & ->).
  apply ext_Ret in Htrain as [_ ->].
  apply bind_Ret in Hrun as (all_loss & σ2 & t3 & t4 & Hwith & Hmean & ->).
  apply with_tqdm_Ret in Hwith as (σ3 & σ4 & t5 & _ & Hsteps & _ & ->).
  apply training_steps_running in Hsteps as (steps & Hlen & -> & -> & Hrunning).
  apply ext_Ret in Hmean as [Hmean ->]. apply handle_mean in Hmean as [Hmean _].
  rewrite app_nil_l in Hmean.
  match goal with
  | |- context [ omap item_of ?t ] =>
      replace t with (training_epoch_events model data_loader optimizer steps average)
        by (unfold training_epoch_events; by rewrite <- !app_assoc)
  end.
  cbv zeta. rewrite items_training_epoch, shown_training_epoch, length_fmap.
  split_and!; [done| |].
  - intros i r Hi. apply list_lookup_fmap_Some in Hi as (s & -> & Hs).
    by apply (Hrunning i s).
  - rewrite fmap_last. destruct (last steps) as [s|] eqn:Hlast.
    + rewrite last_lookup in Hlast. apply Hrunning in Hlast.
      rewrite app_nil_l, take_ge in Hlast by (rewrite length_fmap; lia).
      simpl. f_equal. congruence.
    + apply last_None in Hlast as ->. discriminate.
Qed.

(** *** One update for each episode *)

Lemma paced_silent {A} (m : M A) :
  silent update_of m → silent delivered_of m → paced m.
Proof.
  intros Hu Hd σ. cbv zeta. rewrite Hu, Hd. simpl. destruct (m σ).1.1; lia.
Qed.

Lemma paced_bind {A B} (m : M A) (f : A → M B) :
  paced m → (∀ a, paced (f a)) → paced (m ≫= f).
Proof.
  intros Hm Hf σ. cbv zeta. rewrite bind_trace, bind_outcome.
  specialize (Hm σ). cbv zeta in Hm.
  destruct (m σ) as [[[a|e] σ1] t1]; cbn [fst snd] in Hm |- *; [|done].
  specialize (Hf a σ1). cbv zeta in Hf. rewrite !omap_app, !length_app.
  destruct (f a σ1).1.1; lia.
Qed.

Lemma paced_foldM {A V} (body : V → A → M V) xs :
  (∀ vars x, paced (body vars x)) → ∀ vars, paced (foldM body xs vars).
Proof.
  intros Hbody. induction xs as [|x xs IH]; intros vars; cbn [foldM].
  - by intros σ.
  - apply paced_bind; [apply Hbody|apply IH].
Qed.

Lemma paced_with_tqdm {A} total desc (body : Tqdm → M A) :
  (∀ bar, paced (body bar)) → paced (with_tqdm total desc body).
Proof.
  intros Hbody σ. unfold with_tqdm. cbv zeta. rewrite ext_cases.
  destruct (handle (tqdm_new total desc) σ) as [[[]|e] σ1]; cbn [fst snd]; [|simpl; lia].
  specialize (Hbody {| tqdm_total := total; tqdm_desc := desc |} σ1). cbv zeta in Hbody.
  destruct (body _ σ1) as [[o σ2] t2]. cbn [fst snd] in Hbody. rewrite ext_cases.
  destruct (handle (tqdm_exit _) σ2) as [[[]|e] σ3]; cbn [fst snd];
    rewrite !omap_app, !length_app; simpl; destruct o; lia.
Qed.

(** Runs a straight line of calls, call by call, along every way it can end. *)
Ltac each_call :=
  repeat first
    [ rewrite bind_trace
    | rewrite bind_outcome
    | rewrite ext_cases
    | progress cbn [fst snd]
    | match goal with
      | |- context [ handle ?c ?σ ] => destruct (handle c σ) as [[?|?] ?]
      end ].

Lemma paced_training_step model dl opt bar all_loss i :
  paced (training_step model dl opt bar all_loss i).
Proof.
  intros σ. cbv zeta. unfold training_step.
  rewrite bind_trace, bind_outcome, ext_cases.
  destruct (handle (dataloader_next dl i) σ) as [[ep|e] σ1]; cbn [fst snd];
    [|simpl; lia].
  destruct ep as [si sl qi ql ids]. each_call; simpl; lia.
Qed.

(** X6. However a call of [training_epoch] ends, the optimizer has updated
    the parameters once for each episode the loader delivered, except that an
    exception may have cut the work on the last episode delivered short
    before its update: when the call returns the updates are as many as the
    episodes; when it raises they are as many or one fewer. *)
Theorem one_update_per_episode model data_loader optimizer σ o σ' t :
  training_epoch model data_loader optimizer σ = (o, σ', t) →
  let updates := length (omap update_of t) in
  let delivered := length (omap delivered_of t) in
  match o with
  | Ret _ => updates = delivered
  | Raise _ => updates ≤ delivered ∧ delivered ≤ S updates
  end.
Proof.
  intros Hrun.
  assert (paced (training_epoch model data_loader optimizer)) as Hpaced.
  { unfold training_epoch.
    apply paced_bind; [apply paced_silent; hush|intros _].
    apply paced_bind; [|intros all_loss; apply paced_silent; hush].
    apply paced_with_tqdm. intros bar. apply paced_foldM. intros all_loss i.
    apply paced_training_step. }
  specialize (Hpaced σ). by rewrite Hrun in Hpaced.
Qed.

(** *** What reaches the logging sink, whatever happens *)

Lemma scalars_training_epoch model dl opt : silent scalar_of (training_epoch model dl opt).
Proof. unfold training_epoch. hush. Qed.

Lemma scalars_evaluate model dl device prefix :
  silent scalar_of (evaluate model dl device prefix).
Proof. unfold evaluate. hush. Qed.

Lemma scalars_setup : silent scalar_of setup.
Proof. unfold setup, seed_cell, CUB_new, model_cell, SummaryWriter_new. hush. Qed.

(** A computation that shows nothing, then the rest. *)
Lemma silent_then {A B C} (view : event → option C) (m : M A) (f : A → M B) σ :
  silent view m →
  omap view ((m ≫= f) σ).2
  = match m σ with
    | (Ret a, σ1, _) => omap view (f a σ1).2
    | (Raise _, _, _) => []
    end.
Proof.
  intros Hm. rewrite bind_trace. specialize (Hm σ).
  destruct (m σ) as [[[a|e] σ1] t1]; cbn [snd] in Hm; [|done].
  by rewrite omap_app, Hm.
Qed.

Lemma scalars_epoch_body g vars epoch σ :
  ∃ av, omap scalar_of (epoch_body g vars epoch σ).2 `prefix_of` scalars_of_epoch epoch av
        ∧ (is_ret (epoch_body g vars epoch σ).1.1 →
           omap scalar_of (epoch_body g vars epoch σ).2 = scalars_of_epoch epoch av).
Proof.
  unfold epoch_body.
  rewrite silent_then, bind_outcome by hush.
  destruct (ext (print _) σ) as [[[[]|e] σ1] t1];
    [|exists (0%Qc, 0%Qc); split; [apply prefix_nil|done]].
  rewrite silent_then, bind_outcome by apply scalars_training_epoch.
  destruct (training_epoch _ _ _ σ1) as [[[average_loss|e] σ2] t2];
    [|exists (0%Qc, 0%Qc); split; [apply prefix_nil|done]].
  rewrite silent_then, bind_outcome by apply scalars_evaluate.
  destruct (evaluate _ _ _ _ σ2) as [[[validation_accuracy|e] σ3] t3];
    [|exists (0%Qc, 0%Qc); split; [apply prefix_nil|done]].
  exists (average_loss, validation_accuracy).
  rewrite silent_then, bind_outcome by hush.
  match goal with
  | |- context [ match ?m σ3 with _ => _ end ] => destruct (m σ3) as [[[vars'|e] σ4] t4]
  end; [|split; [apply prefix_nil|done]].
  each_call; simpl; (split; [|done]).
  - done.
  - done.
  - done.
  - by exists [("Val/acc", validation_accuracy, epoch)].
Qed.

Lemma scalars_epochs_from g n : ∀ i vars σ,
  ∃ values : list (Qc * Qc),
    length values ≤ n
    ∧ omap scalar_of (foldM (epoch_body g) (seq i n) vars σ).2
      `prefix_of` concat (imap (λ j, scalars_of_epoch (i + j)) values).
Proof.
  induction n as [|n IH]; intros i vars σ.
  - by exists [].
  - cbn [seq foldM]. rewrite bind_trace.
    destruct (scalars_epoch_body g vars i σ) as (av & Hprefix & Hall).
    destruct (epoch_body g vars i σ) as [[[vars'|e] σ1] t1]; cbn [fst snd] in Hprefix, Hall.
    + destruct (IH (S i) vars' σ1) as (values & Hlen & Hrest).
      exists (av :: values). split; [simpl; lia|].
      rewrite omap_app, Hall by done. cbn [imap concat]. rewrite Nat.add_0_r.
      apply prefix_app.
      erewrite imap_ext; [exact Hrest|]. intros j x _. simpl. f_equal. lia.
    + exists [av]. split; [simpl; lia|].
      cbn [imap concat]. by rewrite Nat.add_0_r, app_nil_r.
Qed.

Lemma scalars_training_loop g σ :
  ∃ values : list (Qc * Qc),
    length values ≤ n_epochs
    ∧ omap scalar_of (training_loop g σ).2
      `prefix_of` concat (imap scalars_of_epoch values).
Proof.
  unfold training_loop, epochs. rewrite silent_then by hush.
  destruct (ext (state_dict _) σ) as [[[initial_state|e] σ1] t1];
    [|exists []; split; [by apply Nat.le_0_l|done]].
  apply (scalars_epochs_from g n_epochs 0).
Qed.

(** X7. However a run of the notebook ends, what it has sent to the logging
    sink is a beginning of this sequence: the training loss of epoch 0, the
    validation accuracy of epoch 0, the training loss of epoch 1, and so on,
    for at most 200 epochs.  No epoch is skipped or logged twice, and the
    accuracy of an epoch is never logged without its loss before it. *)
Theorem scalars_logged_in_order σ o σ' t :
  notebook σ = (o, σ', t) →
  ∃ values : list (Qc * Qc),
    length values ≤ n_epochs
    ∧ omap scalar_of t `prefix_of` concat (imap scalars_of_epoch values).
Proof.
  intros Hrun.
  assert (t = (notebook σ).2) as -> by (by rewrite Hrun). clear Hrun.
  unfold notebook. rewrite silent_then by apply scalars_setup.
  destruct (setup σ) as [[[g|e] σ0] t0]; [|exists []; split; [by apply Nat.le_0_l|done]].
  rewrite bind_trace.
  destruct (scalars_training_loop g σ0) as (values & Hlen & Hprefix).
  exists values. split; [done|].
  destruct (training_loop g σ0) as [[[vars|e] σ2] t2]; cbn [snd] in Hprefix; [|done].
  match goal with
  | |- context [ (?rest σ2).2 ] =>
      assert (silent scalar_of rest) as Hrest
        by (unfold CUB_new; hush; apply scalars_evaluate)
  end.
  by rewrite omap_app, Hrest, app_nil_r.
Qed.

(** *** Nothing of the notebook's own raises *)

(** X8. On a back end none of whose calls raises and whose episodes all have
    a query, the notebook runs to its end from every store: the code adds no
    exception of its own.  The mean of the losses is never taken of an empty
    list, since an epoch has 500 episodes; the state loaded back has the keys
    of the model, being the model's own; no evaluation divides by zero. *)
Theorem notebook_runs_to_its_end σ :
  well_behaved →
  ∃ final σ' t, notebook σ = (Ret final, σ', t).
Proof. apply notebook_returns. Qed.

(** *** The tensors the training writes to *)


Section WritesWithin.
Context (ls : list loc).






End WritesWithin.



End Proofs.

(** * The toy run *)

Section ToyRun.
Import Toy.

Lemma this_inj (a b : Qc) : this a = this b → a = b.
Proof. intros Heq. apply Qc_is_canon. by rewrite Heq. Qed.

Lemma fmap_this_inj (l k : list Qc) : this <$> l = this <$> k → l = k.
Proof.
  revert k. induction l as [|a l IH]; intros [|b k]; simpl; try done.
  intros [= Ha Hl]. f_equal; [by apply this_inj|by apply IH].
Qed.

Lemma digest_vars_run r vars σ' qs ss :
  digest vars_digest r = (Some (vars_digest vars), σ', this <$> qs, ss) →
  ∃ t, r = (Ret vars, σ', t) ∧ omap quotient_of t = qs ∧ omap snapshot_of t = ss.
Proof.
  destruct r as [[[v|e] σ1] t]; unfold digest; simpl; [|discriminate].
  intros Heq. injection Heq as Hsd Hb Hσ Hq Hs. exists t.
  destruct v as [sd' b'], vars as [sd b]. simpl in *.
  apply this_inj in Hb. apply fmap_this_inj in Hq. by subst.
Qed.

Lemma digest_accuracy_run r (a : Qc) σ' qs ss :
  digest this r = (Some (this a), σ', this <$> qs, ss) →
  ∃ t, r = (Ret a, σ', t) ∧ omap quotient_of t = qs ∧ omap snapshot_of t = ss.
Proof.
  destruct r as [[[v|e] σ1] t]; unfold digest; simpl; [|discriminate].
  intros Heq. injection Heq as Ha Hσ Hq Hs. exists t.
  apply this_inj in Ha. apply fmap_this_inj in Hq. by subst.
Qed.

(** The toy back end is well behaved: on it the notebook runs to its end. *)
Lemma toy_well_behaved : well_behaved.
Proof.
  split_and!.
  - intros R c h f. by destruct c.
  - done.
  - done.
  - intros dl i h f ep f' [= <- _]. done.
Qed.

Lemma toy_setup : setup toy_store = (Ret toy_globals, toy_at 0, setup_events toy_globals).
Proof. vm_compute. reflexivity. Qed.

(** The first epoch: 500 steps take "w" to 500, every validation query is
    classified correctly, and the snapshot is taken. *)
Lemma toy_first_epoch :
  ∃ t, epoch_body toy_globals
         {| best_state := {[ "w" := 0 ]}; best_validation_accuracy := 0%Qc |} 0 (toy_at 0)
       = (Ret best_vars, toy_at 500, t)
       ∧ omap quotient_of t = [1%Qc]
       ∧ omap snapshot_of t = [toy_classifier].
Proof.
  apply (digest_vars_run _ best_vars _ [1%Qc]). vm_compute. reflexivity.
Qed.

(** Every later epoch: 500 more steps, every validation query is
    misclassified, and no snapshot is taken. *)
Lemma toy_later_epoch x epoch :
  ∃ t, epoch_body toy_globals best_vars epoch (toy_at (500 + x))
       = (Ret best_vars, toy_at (500 + (500 + x)), t)
       ∧ omap quotient_of t = [0%Qc]
       ∧ omap snapshot_of t = [].
Proof.
  apply (digest_vars_run _ best_vars _ [0%Qc]). vm_compute. reflexivity.
Qed.

Lemma toy_later_epochs n : ∀ epoch x,
  ∃ t, foldM (epoch_body toy_globals) (seq epoch n) best_vars (toy_at (500 + x))
       = (Ret best_vars, toy_at (500 + (n * 500 + x)), t)
       ∧ omap quotient_of t = replicate n 0%Qc
       ∧ omap snapshot_of t = [].
Proof.
  induction n as [|n IH]; intros epoch x.
  - by exists [].
  - destruct (toy_later_epoch x epoch) as (t1 & Hrun1 & Hq1 & Hs1).
    destruct (IH (S epoch) (500 + x)) as (t2 & Hrun2 & Hq2 & Hs2).
    exists (t1 ++ t2). rewrite !omap_app, Hq1, Hq2, Hs1, Hs2. split_and!; [|done..].
    cbn [seq foldM]. erewrite bind_run; [|done..].
    do 3 f_equal. lia.
Qed.

(** The loop stopped after [S k] epochs. *)
Lemma toy_epochs k :
  ∃ t, epochs toy_globals (S k) (toy_at 0) = (Ret best_vars, toy_at (S k * 500), t)
       ∧ omap quotient_of t = 1%Qc :: replicate k 0%Qc
       ∧ omap snapshot_of t = [toy_classifier; toy_classifier].
Proof.
  destruct toy_first_epoch as (t1 & Hrun1 & Hq1 & Hs1).
  destruct (toy_later_epochs k 1 0) as (t2 & Hrun2 & Hq2 & Hs2).
  exists ([Ev (state_dict toy_classifier) (Ret {[ "w" := 0 ]})] ++ t1 ++ t2).
  rewrite !omap_app, Hq1, Hq2, Hs1, Hs2. split_and!; [|done..].
  unfold epochs. eapply bind_run; [by apply ext_run|].
  cbn [seq foldM]. erewrite bind_run; [|done..].
  do 3 f_equal. lia.
Qed.

(** Beyond 500 steps the classifier is wrong on every test query. *)
Lemma toy_test k :
  ∃ t, evaluate toy_classifier (test_loader {| split := "test"; training := false |})
         DEVICE None (toy_at (S (S k) * 500))
       = (Ret 0%Qc, toy_at (S (S k) * 500), t)
       ∧ omap quotient_of t = [0%Qc]
       ∧ omap snapshot_of t = [].
Proof.
  apply (digest_accuracy_run _ _ _ [0%Qc]). vm_compute. reflexivity.
Qed.

Lemma toy_CUB_load split training w :
  ext (CUB_load split training) (toy_at w)
  = (Ret (), toy_at w, [Ev (CUB_load split training) (Ret ())]).
Proof. reflexivity. Qed.

Lemma toy_print_percent prefix value suffix w :
  ext (print_percent prefix value suffix) (toy_at w)
  = (Ret (), toy_at w, [Ev (print_percent prefix value suffix) (Ret ())]).
Proof. reflexivity. Qed.

(** The whole run. *)
Lemma toy_notebook :
  ∃ t, notebook toy_store = (Ret toy_final, toy_at (n_epochs * 500), t)
       ∧ omap quotient_of t = 1%Qc :: replicate 199 0%Qc ++ [0%Qc]
       ∧ omap snapshot_of t = [toy_classifier; toy_classifier].
Proof.
  destruct (toy_epochs 199) as (t1 & Hloop & Hq1 & Hs1).
  destruct (toy_test 198) as (t2 & Htest & Hq2 & Hs2).
  change n_epochs with (S 199).
  exists (setup_events toy_globals
          ++ t1
          ++ [Ev (load_state_dict toy_classifier {[ "w" := 0 ]}) (Ret ())]
          ++ ([Ev (CUB_load "test" false) (Ret ())] ++ [])
          ++ t2
          ++ [Ev (print_percent "Average accuracy : " (Qc_of_Z 100 * 0)%Qc " %") (Ret ())]
          ++ []).
  split.
  - unfold notebook, training_loop.
    eapply bind_run; [apply toy_setup|].
    eapply bind_run; [exact Hloop|].
    eapply bind_run; [apply ext_run, (load_own_state_dict toy_classifier)|].
    eapply bind_run.
    { unfold CUB_new. eapply bind_run; [apply toy_CUB_load|]. reflexivity. }
    eapply bind_run; [exact Htest|].
    eapply bind_run; [apply toy_print_percent|].
    reflexivity.
  - rewrite !omap_app, Hq1, Hq2, Hs1, Hs2. split; reflexivity.
Qed.

Lemma toy_parameter_values w :
  parameter_values toy_classifier (toy_at w) = {[ "w" := w ]}.
Proof. reflexivity. Qed.

(** C1. On the toy back end the best validation accuracy, 1, is measured in
    epoch 0, when 500 steps have taken "w" to 500; that is the only epoch in
    which a snapshot is taken, every later accuracy being 0.  At the end of
    the notebook, after [load_state_dict(best_state)], "w" is not 500: it is
    100000, what the 200th epoch left. *)
Theorem restore_keeps_last_epoch_parameters :
  ∃ σ1 t1 σ' t,
    (g ← setup; epochs g 1) toy_store = (Ret best_vars, σ1, t1)
    ∧ omap quotient_of t1 = [1%Qc]
    ∧ parameter_values toy_classifier σ1 = {[ "w" := 500 ]}
    ∧ notebook toy_store = (Ret toy_final, σ', t)
    ∧ omap quotient_of t = 1%Qc :: replicate 199 0%Qc ++ [0%Qc]
    ∧ omap snapshot_of t = [toy_classifier; toy_classifier]
    ∧ parameter_values toy_classifier σ' = {[ "w" := n_epochs * 500 ]}
    ∧ parameter_values toy_classifier σ' ≠ parameter_values toy_classifier σ1.
Proof.
  destruct (toy_epochs 0) as (t1 & Hloop & Hq1 & _).
  destruct toy_notebook as (t & Hrun & Hq & Hs).
  exists (toy_at (1 * 500)), (setup_events toy_globals ++ t1), (toy_at (n_epochs * 500)), t.
  split_and!; [|by rewrite omap_app, Hq1|apply toy_parameter_values|done..
               |apply toy_parameter_values|].
  - eapply bind_run; [apply toy_setup|exact Hloop].
  - rewrite !toy_parameter_values. intros Heq.
    apply (f_equal (λ m : gmap string nat, m !! "w")) in Heq.
    rewrite !lookup_singleton_eq in Heq. apply (inj Some) in Heq.
    unfold n_epochs in Heq. lia.
Qed.

End ToyRun.

(** * The definitions on small inputs *)

Section Examples.
Import Toy.

Example py_mean_of_nothing : py_mean [] = Raise StatisticsError.
Proof. reflexivity. Qed.

Example py_mean_of_three :
  py_mean [Qc_of_Z 1; Qc_of_Z 2; Qc_of_Z 6] = Ret (Qc_of_Z 3).
Proof. unfold py_mean. f_equal. by apply Qc_is_canon. Qed.

Example py_truediv_half : py_truediv 25 50 = Ret (Q2Qc (1 # 2)).
Proof. unfold py_truediv. f_equal. by apply Qc_is_canon. Qed.

Example py_truediv_by_zero : py_truediv 3 0 = Raise ZeroDivisionError.
Proof. reflexivity. Qed.

Example count_correct_two_of_three : count_correct [0; 1; 2] [0; 3; 2] = 2.
Proof. reflexivity. Qed.

(** A batch of 5 x 15 items gives 25 support items and 50 queries, labelled
    by the position of their class. *)
Example toy_batch_collated :
  match episodic_collate_fn (train_sampler (train_set toy_globals)) toy_batch with
  | Ret episode =>
      class_ids episode = [0; 1; 2; 3; 4]
      ∧ support_labels episode
        = replicate 5 0 ++ replicate 5 1 ++ replicate 5 2 ++ replicate 5 3 ++ replicate 5 4
      ∧ length (query_labels episode) = 50
  | Raise _ => False
  end.
Proof. vm_compute. done. Qed.

Example short_batch_rejected :
  episodic_collate_fn (train_sampler (train_set toy_globals)) [((), 0)]
  = Raise RuntimeError.
Proof. reflexivity. Qed.

(** Two training steps on the toy back end take "w" from 0 to 2. *)
Example two_training_steps :
  heap (training_epoch toy_classifier two_tasks (train_optimizer toy_classifier)
          (toy_at 0)).1.2 = {[ 0 := 2 ]}.
Proof. vm_compute. reflexivity. Qed.

(** Over a loader of no episode [training_epoch] raises StatisticsError. *)
Example empty_epoch_raises :
  (training_epoch toy_classifier no_tasks (train_optimizer toy_classifier)
     (toy_at 0)).1.1 = Raise StatisticsError.
Proof. reflexivity. Qed.

(** A snapshot taken before two training steps holds 0 when taken and 2
    after the steps; loading it back leaves the parameter at 2. *)
Example snapshot_follows_the_parameters :
  ((snapshot ← ext (state_dict toy_classifier);
    taken ← read_state snapshot;
    training_epoch toy_classifier two_tasks (train_optimizer toy_classifier);;
    later ← read_state snapshot;
    ext (load_state_dict toy_classifier snapshot);;
    loaded ← read_state (_parameters (backbone toy_classifier));
    mret (taken, later, loaded)) (toy_at 0)).1.1
  = Ret ({[ "w" := 0 ]}, {[ "w" := 2 ]}, {[ "w" := 2 ]}).
Proof. vm_compute. reflexivity. Qed.

End Examples.

(** * The theorems at work on the toy back end *)

Section Witnesses.
Import Toy.

Lemma notebook_phase_order_witness :
  ∃ t, notebook toy_store = (Ret toy_final, toy_at (n_epochs * 500), t)
       ∧ omap phase_of t
         = concat (replicate n_epochs (pass "train" n_tasks_per_epoch
                                       ++ pass "val" n_validation_tasks))
           ++ [Restore]
           ++ pass "test" n_test_tasks.
Proof.
  destruct toy_notebook as (t & Hrun & _). exists t. split; [exact Hrun|].
  exact (proj2 (notebook_phase_order _ _ _ _ Hrun)).
Defined.

Lemma training_epoch_interactions_witness :
  ∃ average σ' t,
    training_epoch toy_classifier two_tasks (train_optimizer toy_classifier) (toy_at 0)
    = (Ret average, σ', t)
    ∧ ∃ steps,
        length steps = 2
        ∧ omap delivered_of t = step_episode <$> steps
        ∧ omap interaction_of t = concat (episode_interactions <$> steps)
        ∧ omap write_of t = replicate 2 (Stepped (train_optimizer toy_classifier)).
Proof.
  assert (∃ average σ' t,
            training_epoch toy_classifier two_tasks (train_optimizer toy_classifier)
              (toy_at 0) = (Ret average, σ', t)) as (average & σ' & t & Hrun).
  { eexists _, _, _. vm_compute. reflexivity. }
  exists average, σ', t. split; [exact Hrun|].
  exact (training_epoch_interactions _ _ _ _ _ _ _ Hrun).
Defined.

Lemma episode_shapes_witness :
  ∃ episode,
    apply_collate (dl_collate_fn (train_loader (train_set toy_globals))) toy_batch
    = Ret episode
    ∧ length (support_images episode) = 25
    ∧ length (query_labels episode) = 50.
Proof.
  assert (∃ episode,
            apply_collate (dl_collate_fn (train_loader (train_set toy_globals))) toy_batch
            = Ret episode) as (episode & Hcollate).
  { eexists. vm_compute. reflexivity. }
  exists episode. split; [exact Hcollate|].
  pose proof (episode_shapes (train_set toy_globals) (val_set toy_globals)
                (val_set toy_globals) _ _ _
                (list_elem_of_here _ _) Hcollate) as (_ & _ & Hsi & _ & _ & Hql).
  split; [exact Hsi|exact Hql].
Defined.

Lemma evaluate_accuracy_bounds_witness :
  ∃ accuracy σ' t,
    evaluate toy_classifier two_tasks DEVICE None (toy_at 0) = (Ret accuracy, σ', t)
    ∧ (0 ≤ accuracy ∧ accuracy ≤ 1)%Qc.
Proof.
  assert (∃ accuracy σ' t,
            evaluate toy_classifier two_tasks DEVICE None (toy_at 0)
            = (Ret accuracy, σ', t)) as (accuracy & σ' & t & Hrun).
  { eexists _, _, _. vm_compute. reflexivity. }
  exists accuracy, σ', t. split; [exact Hrun|].
  exact (evaluate_accuracy_bounds _ _ _ _ _ _ _ _ Hrun).
Defined.

(** The forward pass of the first training step raises: the bar is left, the
    exception comes out as raised. *)
Lemma exceptions_propagate_witness :
  ∃ σ' t,
    notebook (H0 := broken_forward) toy_store = (Raise RuntimeError, σ', t)
    ∧ ∃ pre ev post,
        t = pre ++ ev :: post
        ∧ Forall (λ ev, raised ev = None) pre
        ∧ is_Some (raised ev)
        ∧ Forall (λ ev, is_tqdm_exit ev) post
        ∧ last (omap raised (ev :: post)) = Some RuntimeError.
Proof.
  assert (∃ σ' t, notebook (H0 := broken_forward) toy_store
                  = (Raise RuntimeError, σ', t)) as (σ' & t & Hrun).
  { eexists _, _. vm_compute. reflexivity. }
  exists σ', t. split; [exact Hrun|].
  exact (exceptions_propagate (H0 := broken_forward) _ _ _ _ Hrun).
Defined.

Lemma notebook_scalars_witness :
  ∃ t, notebook toy_store = (Ret toy_final, toy_at (n_epochs * 500), t)
       ∧ ∃ obs test,
           t = notebook_events toy_globals obs test 0%Qc
           ∧ length obs = n_epochs
           ∧ n_epochs = 200
           ∧ Forall epoch_shaped obs
           ∧ omap scalar_of t = concat (imap epoch_scalars obs).
Proof.
  destruct toy_notebook as (t & Hrun & _). exists t. split; [exact Hrun|].
  exact (notebook_scalars _ _ _ _ Hrun).
Defined.

Lemma training_epoch_mean_witness :
  ∃ o σ' t,
    training_epoch toy_classifier two_tasks (train_optimizer toy_classifier) (toy_at 0)
    = (o, σ', t)
    ∧ (∀ average, o = Ret average →
         let losses := omap item_of t in
         len two_tasks ≠ 0
         ∧ length losses = len two_tasks
         ∧ average
           = (foldr Qcplus 0 losses / Qc_of_Z (Z.of_nat (length losses)))%Qc).
Proof.
  assert (∃ o σ' t,
            training_epoch toy_classifier two_tasks (train_optimizer toy_classifier)
              (toy_at 0) = (o, σ', t)) as (o & σ' & t & Hrun).
  { eexists _, _, _. vm_compute. reflexivity. }
  exists o, σ', t. split; [exact Hrun|].
  exact (proj1 (training_epoch_mean _ _ _ _ _ _ _ Hrun)).
Defined.

Lemma best_validation_accuracy_running_maximum_witness :
  ∃ t',
    epochs toy_globals 2 (toy_at 0) = (Ret best_vars, toy_at (2 * 500), t')
    ∧ length (omap quotient_of t') = 2
    ∧ best_validation_accuracy best_vars ∈ 0%Qc :: omap quotient_of t'
    ∧ Forall (λ a, a ≤ best_validation_accuracy best_vars)%Qc
        (0%Qc :: omap quotient_of t').
Proof.
  destruct (toy_epochs 1) as (t' & Hrun & _).
  exists t'. split; [exact Hrun|].
  destruct (best_validation_accuracy_running_maximum _ _ _ _ _ _ Hrun)
    as (Hlen & Hin & Hmax & _).
  split; [exact Hlen|]. split; [exact Hin|exact Hmax].
Defined.

Lemma seeding_fixes_random_state_witness :
  seed_cell toy_store = (Ret (), seeded toy_store, seed_events)
  ∧ (∃ rest, (notebook toy_store).2 = seed_events ++ rest)
  ∧ notebook toy_store = notebook toy_store_reseeded.
Proof.
  exact (seeding_fixes_random_state toy_store toy_store_reseeded
           eq_refl eq_refl eq_refl).
Defined.

End Witnesses.

(** * The further properties at work on the toy back end *)

Section MoreWitnesses.
Import Toy.

Lemma restore_leaves_last_epoch_parameters_witness :
  ∃ t, notebook toy_store = (Ret toy_final, toy_at (n_epochs * 500), t)
       ∧ ∃ σ0 t0 σ1 t1,
           setup toy_store = (Ret toy_globals, σ0, t0)
           ∧ training_loop toy_globals σ0 = (Ret best_vars, σ1, t1)
           ∧ parameter_values toy_classifier (toy_at (n_epochs * 500))
             = parameter_values toy_classifier σ1.
Proof.
  destruct toy_notebook as (t & Hrun & _). exists t. split; [exact Hrun|].
  exact (restore_leaves_last_epoch_parameters _ _ _ _ Hrun).
Defined.

Lemma best_state_reads_current_parameters_witness :
  ∃ t, epochs toy_globals 1 (toy_at 0) = (Ret best_vars, toy_at (1 * 500), t)
       ∧ values_of (best_state best_vars) (toy_at (1 * 500))
         = parameter_values toy_classifier (toy_at (1 * 500)).
Proof.
  destruct (toy_epochs 0) as (t & Hrun & _). exists t. split; [exact Hrun|].
  exact (best_state_reads_current_parameters _ _ _ _ _ _ Hrun).
Defined.

Lemma optimizer_steps_before_scheduler_step_witness :
  ∃ t, notebook toy_store = (Ret toy_final, toy_at (n_epochs * 500), t)
       ∧ omap pace_of t
         = concat (replicate n_epochs (replicate n_tasks_per_epoch Update ++ [Decay])).
Proof.
  destruct toy_notebook as (t & Hrun & _). exists t. split; [exact Hrun|].
  exact (optimizer_steps_before_scheduler_step _ _ _ _ Hrun).
Defined.

(** The forward pass of the first episode raises: one episode was fetched,
    the bar is closed all the same. *)
Lemma progress_bar_always_closed_witness :
  ∃ σ' t,
    training_epoch (H0 := broken_forward) toy_classifier two_tasks
      (train_optimizer toy_classifier) (toy_at 0) = (Raise RuntimeError, σ', t)
    ∧ ((is_ret (Raise RuntimeError : outcome Qc) = false ∧ omap bar_of t = [])
       ∨ ∃ k, k ≤ len two_tasks
              ∧ (is_ret (Raise RuntimeError : outcome Qc) → k = len two_tasks)
              ∧ omap bar_of t = [Opened] ++ replicate k Fetched ++ [Closed]).
Proof.
  assert (∃ σ' t,
            training_epoch (H0 := broken_forward) toy_classifier two_tasks
              (train_optimizer toy_classifier) (toy_at 0)
            = (Raise RuntimeError, σ', t)) as (σ' & t & Hrun).
  { eexists _, _. vm_compute. reflexivity. }
  exists σ', t. split; [exact Hrun|].
  exact (progress_bar_always_closed (H0 := broken_forward) _ _ _ _ _ _ _ Hrun).
Defined.

Lemma progress_bar_shows_running_mean_witness :
  ∃ average σ' t,
    training_epoch toy_classifier two_tasks (train_optimizer toy_classifier) (toy_at 0)
    = (Ret average, σ', t)
    ∧ length (omap shown_of t) = len two_tasks
    ∧ (∀ i r, omap shown_of t !! i = Some r →
              py_mean (take (S i) (omap item_of t)) = Ret r)
    ∧ last (omap shown_of t) = Some average.
Proof.
  assert (∃ average σ' t,
            training_epoch toy_classifier two_tasks (train_optimizer toy_classifier)
              (toy_at 0) = (Ret average, σ', t)) as (average & σ' & t & Hrun).
  { eexists _, _, _. vm_compute. reflexivity. }
  exists average, σ', t. split; [exact Hrun|].
  exact (progress_bar_shows_running_mean _ _ _ _ _ _ _ Hrun).
Defined.

(** The forward pass of the first episode raises: one episode delivered, no
    update. *)
Lemma one_update_per_episode_witness :
  ∃ σ' t,
    training_epoch (H0 := broken_forward) toy_classifier two_tasks
      (train_optimizer toy_classifier) (toy_at 0) = (Raise RuntimeError, σ', t)
    ∧ length (omap update_of t) ≤ length (omap delivered_of t)
    ∧ length (omap delivered_of t) ≤ S (length (omap update_of t)).
Proof.
  assert (∃ σ' t,
            training_epoch (H0 := broken_forward) toy_classifier two_tasks
              (train_optimizer toy_classifier) (toy_at 0)
            = (Raise RuntimeError, σ', t)) as (σ' & t & Hrun).
  { eexists _, _. vm_compute. reflexivity. }
  exists σ', t. split; [exact Hrun|].
  exact (one_update_per_episode (H0 := broken_forward) _ _ _ _ _ _ _ Hrun).
Defined.

Lemma scalars_logged_in_order_witness :
  ∃ t, notebook toy_store = (Ret toy_final, toy_at (n_epochs * 500), t)
       ∧ ∃ values : list (Qc * Qc),
           length values ≤ n_epochs
           ∧ omap scalar_of t `prefix_of` concat (imap scalars_of_epoch values).
Proof.
  destruct toy_notebook as (t & Hrun & _). exists t. split; [exact Hrun|].
  exact (scalars_logged_in_order _ _ _ _ Hrun).
Defined.

Lemma notebook_runs_to_its_end_witness :
  ∃ final σ' t, notebook toy_store = (Ret final, σ', t).
Proof. exact (notebook_runs_to_its_end toy_store toy_well_behaved). Defined.


End MoreWitnesses.
